(** * go-fault: fault-injection middleware for net/http

    A shallow embedding of [fault.go] (the [Fault] gate and the reject, error,
    slow and chained injectors) and of the later text of the injectors (with
    a reporter each, and the random injector), together with the properties
    of the package's specification.

    Handlers are state transformers over a [World] that holds everything a
    handler can observe or change: the global random source of [math/rand],
    and the trace of effects (response writes, sleeps, reports).  A Go panic
    is an outcome of its own, so that an aborted exchange is told apart from
    a handler that returns. *)

From Stdlib Require Import ZArith List String Bool Lia.
From Stdlib Require Import SpecFloat.
Import ListNotations.

Local Open Scope string_scope.
Local Open Scope list_scope.
Local Open Scope Z_scope.

(* ================================================================== *)
(** ** float32 values and their comparisons *)

Module Float32.

(** A Go [float32] is an IEEE 754 binary32 value: a signed zero, a signed
    infinity, a NaN, or a finite number [(-1)^s * m * 2^e]. *)
Definition float32 : Type := spec_float.

Definition prec : Z := 24.
Definition emax : Z := 128.

Definition is_float32 (x : float32) : bool := valid_binary prec emax x.

(** The constants of the source, as binary32 values. *)
Definition zero : float32 := S754_zero false.
Definition one : float32 := S754_finite false 8388608 (-23).
Definition NaN : float32 := S754_nan.

(** [float32(0.5)], [float32(0.25)], [float32(0.75)], [float32(-0.1)] and
    [float32(1.1)], rounded to nearest as the Go compiler does. *)
Definition half : float32 := S754_finite false 8388608 (-24).
Definition quarter : float32 := S754_finite false 8388608 (-25).
Definition three_quarters : float32 := S754_finite false 12582912 (-24).
Definition minus_tenth : float32 := S754_finite true 13421773 (-27).
Definition one_and_tenth : float32 := S754_finite false 9227469 (-23).

(** Go's [<], [<=] and [>] on floats: every comparison with a NaN is
    false. *)
Definition lt (x y : float32) : bool := SFltb x y.
Definition le (x y : float32) : bool := SFleb x y.
Definition gt (x y : float32) : bool :=
  match SFcompare x y with
  | Some Gt => true
  | _ => false
  end.

Definition is_nan (x : float32) : bool :=
  match x with
  | S754_nan => true
  | _ => false
  end.

(** [0.0 <= x <= 1.0], the documented bounds of a percentage. *)
Definition in_bounds (x : float32) : bool := le zero x && le x one.

(** [0.0 <= x < 1.0], the range of [rand.Float32]. *)
Definition in_unit (x : float32) : bool := le zero x && lt x one.

End Float32.

(* ================================================================== *)
(** ** The part of net/http, math/rand and time the package relies on *)

Module Http.
Import Float32.

(** A [http.ResponseWriter] is a reference to the response of one
    exchange; a [*http.Request] carries the tags that the injectors
    attach to its context. *)
Definition ResponseWriter : Type := nat.

Inductive ContextValue : Type :=
| ContextValueChainInjector
| ContextValueRandomInjector
| ContextValueSlowInjector.

Record Request : Type := mkRequest
  { req_id : nat
  ; req_ctx : list ContextValue }.

Definition Duration : Type := Z.

(** What a value passed to [panic] can be here: the sentinel
    [http.ErrAbortHandler], or a run-time error of the Go runtime. *)
Inductive PanicValue : Type :=
| ErrAbortHandler
| RuntimeError (msg : string).

Inductive Result (A : Type) : Type :=
| Ok (a : A)
| Panic (v : PanicValue).
Arguments Ok {A} a.
Arguments Panic {A} v.

Inductive Event : Type :=
| EvSetHeader (w : ResponseWriter) (key value : string)
| EvWriteHeader (w : ResponseWriter) (code : Z)
| EvWrite (w : ResponseWriter) (body : string)
| EvSleep (d : Duration)
| EvReport (r : Request) (msg : string)
| EvServed (tag : nat) (w : ResponseWriter) (r : Request).

(** The world: the global source of math/rand (the value its n-th draw
    gives, as a float32 and as a raw integer, and the number of draws made
    so far), and the effects performed so far, oldest first. *)
Record World : Type := mkWorld
  { float_src : nat -> float32
  ; int_src : nat -> Z
  ; rand_pos : nat
  ; trace : list Event }.

(** Computations that read and change the world and may panic. *)
Definition M (A : Type) : Type := World -> Result A * World.

Definition ret {A : Type} (a : A) : M A := fun s => (Ok a, s).

Definition bind {A B : Type} (m : M A) (k : A -> M B) : M B :=
  fun s =>
    match m s with
    | (Ok a, s') => k a s'
    | (Panic v, s') => (Panic v, s')
    end.

Definition panic {A : Type} (v : PanicValue) : M A := fun s => (Panic v, s).

Definition emit (e : Event) : M unit :=
  fun s =>
    (Ok tt, mkWorld (float_src s) (int_src s) (rand_pos s) (trace s ++ [e])).

Definition draw (s : World) : World :=
  mkWorld (float_src s) (int_src s) (S (rand_pos s)) (trace s).

(** [rand.Float32()]. *)
Definition rand_Float32 : M float32 :=
  fun s => (Ok (float_src s (rand_pos s)), draw s).

(** [rand.Intn(n)]: panics when [n <= 0], else a value of [[0, n)]. *)
Definition rand_Intn (n : Z) : M Z :=
  if n <=? 0 then panic (RuntimeError "invalid argument to Intn")
  else fun s => (Ok (int_src s (rand_pos s) mod n), draw s).

(** [time.Sleep(d)]. *)
Definition time_Sleep (d : Duration) : M unit := emit (EvSleep d).

Definition HttpHandler : Type := ResponseWriter -> Request -> M unit.

(** [http.StatusText]: the reason phrase of a status code, the empty
    string when the code is unknown. *)
Definition statusTexts : list (Z * string) :=
  [ (100, "Continue"); (101, "Switching Protocols"); (102, "Processing");
    (103, "Early Hints");
    (200, "OK"); (201, "Created"); (202, "Accepted");
    (203, "Non-Authoritative Information"); (204, "No Content");
    (205, "Reset Content"); (206, "Partial Content"); (207, "Multi-Status");
    (208, "Already Reported"); (226, "IM Used");
    (300, "Multiple Choices"); (301, "Moved Permanently"); (302, "Found");
    (303, "See Other"); (304, "Not Modified"); (305, "Use Proxy");
    (307, "Temporary Redirect"); (308, "Permanent Redirect");
    (400, "Bad Request"); (401, "Unauthorized"); (402, "Payment Required");
    (403, "Forbidden"); (404, "Not Found"); (405, "Method Not Allowed");
    (406, "Not Acceptable"); (407, "Proxy Authentication Required");
    (408, "Request Timeout"); (409, "Conflict"); (410, "Gone");
    (411, "Length Required"); (412, "Precondition Failed");
    (413, "Request Entity Too Large"); (414, "Request URI Too Long");
    (415, "Unsupported Media Type");
    (416, "Requested Range Not Satisfiable"); (417, "Expectation Failed");
    (418, "I'm a teapot"); (421, "Misdirected Request");
    (422, "Unprocessable Entity"); (423, "Locked");
    (424, "Failed Dependency"); (425, "Too Early");
    (426, "Upgrade Required"); (428, "Precondition Required");
    (429, "Too Many Requests"); (431, "Request Header Fields Too Large");
    (451, "Unavailable For Legal Reasons");
    (500, "Internal Server Error"); (501, "Not Implemented");
    (502, "Bad Gateway"); (503, "Service Unavailable");
    (504, "Gateway Timeout"); (505, "HTTP Version Not Supported");
    (506, "Variant Also Negotiates"); (507, "Insufficient Storage");
    (508, "Loop Detected"); (510, "Not Extended");
    (511, "Network Authentication Required") ].

Fixpoint lookupText (code : Z) (tbl : list (Z * string)) : string :=
  match tbl with
  | [] => EmptyString
  | (c, t) :: tbl' => if c =? code then t else lookupText code tbl'
  end.

Definition StatusText (code : Z) : string := lookupText code statusTexts.

Definition newline : string := String (Ascii.ascii_of_nat 10) EmptyString.

(** [http.Error(w, error, code)]: two headers, the status line, and the
    message followed by a newline. *)
Definition http_Error (w : ResponseWriter) (error : string) (code : Z)
  : M unit :=
  bind (emit (EvSetHeader w "Content-Type" "text/plain; charset=utf-8"))
    (fun _ =>
  bind (emit (EvSetHeader w "X-Content-Type-Options" "nosniff"))
    (fun _ =>
  bind (emit (EvWriteHeader w code))
    (fun _ => emit (EvWrite w (String.append error newline))))).

End Http.

Declare Scope go_scope.
Delimit Scope go_scope with go.
Notation "x <- m ;; k" := (Http.bind m (fun x => k))
  (at level 61, m at next level, right associativity) : go_scope.
Notation "m ;; k" := (Http.bind m (fun _ => k))
  (at level 61, right associativity) : go_scope.
Local Open Scope go_scope.

(* ================================================================== *)
(** ** Go slices *)

Module Slice.

(** A slice is nil or holds its elements; a variadic function called with no
    argument receives the nil slice. *)
Definition slice (A : Type) : Type := option (list A).

Definition nil_slice {A : Type} : slice A := None.

Definition elems {A : Type} (s : slice A) : list A :=
  match s with
  | None => []
  | Some l => l
  end.

Definition len {A : Type} (s : slice A) : nat := List.length (elems s).

(** What a call [f(a1, ..., an)] of a variadic [f] passes. *)
Definition variadic {A : Type} (args : list A) : slice A :=
  match args with
  | [] => None
  | _ => Some args
  end.

End Slice.

(* ================================================================== *)
(** ** fault.go *)

Module FaultGo.
Import Float32 Http Slice.

Inductive error : Type :=
| ErrNilInjector
| ErrInvalidPercent
| ErrInvalidHTTPCode.

(** The [Injector] interface: one method, [Handler(next) http.Handler].
    Wrapping is itself a computation, since an implementation may act when
    it wraps ([Fault.Handler] does). *)
Record Injector : Type := mkInjector
  { Handler : HttpHandler -> M HttpHandler }.

(** An interface value or a pointer is [None] when it is nil. *)
Record Options : Type := mkOptions
  { Enabled : bool
  ; Injector' : option Injector
  ; PercentOfRequests : float32 }.

Record Fault : Type := mkFault
  { opt : Options }.

Definition NewFault (o : Options) : option Fault * option error :=
  match Injector' o with
  | None => (None, Some ErrNilInjector)
  | Some _ =>
      if lt (PercentOfRequests o) zero || gt (PercentOfRequests o) one
      then (None, Some ErrInvalidPercent)
      else (Some (mkFault o), None)
  end.

Definition percentDo (f : Fault) : M bool :=
  rn <- rand_Float32 ;;
  if lt rn (PercentOfRequests (opt f)) && le (PercentOfRequests (opt f)) one
  then ret true
  else ret false.

Definition isSome {A : Type} (o : option A) : bool :=
  match o with
  | Some _ => true
  | None => false
  end.

Definition Fault_Handler (f : option Fault) (next : HttpHandler)
  : M HttpHandler :=
  let passthrough : HttpHandler := fun w r => next w r in
  match f with
  | Some f' =>
      if Enabled (opt f') then
        b <- percentDo f' ;;
        match b, Injector' (opt f') with
        | true, Some inj => Handler inj next
        | _, _ => ret passthrough
        end
      else ret passthrough
  | None => ret passthrough
  end.

Definition Middleware : Type := HttpHandler -> M HttpHandler.

Record ChainedInjector : Type := mkChainedInjector
  { middlewares : list Middleware }.

(** The loop of [NewChainedInjector]: the method value [i.Handler] of each
    element is appended; taking it on a nil interface value panics. *)
Fixpoint appendHandlers (acc : list Middleware) (is' : list (option Injector))
  : Result (list Middleware) :=
  match is' with
  | [] => Ok acc
  | None :: _ =>
      Panic (RuntimeError "invalid memory address or nil pointer dereference")
  | Some i :: rest => appendHandlers (acc ++ [Handler i]) rest
  end.

Definition NewChainedInjector (is' : slice (option Injector))
  : Result (option ChainedInjector * option error) :=
  match is' with
  | None => Ok (None, Some ErrNilInjector)
  | Some l =>
      match appendHandlers [] l with
      | Ok ms => Ok (Some (mkChainedInjector ms), None)
      | Panic v => Panic v
      end
  end.

(** [i.middlewares[idx]], with the run-time bounds check. *)
Definition index (ms : list Middleware) (idx : nat) : M Middleware :=
  match nth_error ms idx with
  | Some m => ret m
  | None => panic (RuntimeError "index out of range")
  end.

(** The loop [for idx := len - 1; idx >= 0; idx--] of the chained handler;
    [n] is [idx + 1]. *)
Fixpoint chainLoop (ms : list Middleware) (n : nat) (chain : HttpHandler)
  : M HttpHandler :=
  match n with
  | O => ret chain
  | S idx =>
      m <- index ms idx ;;
      chain' <- m chain ;;
      chainLoop ms idx chain'
  end.

Definition ChainedInjector_Handler (i : option ChainedInjector)
  (next : HttpHandler) : M HttpHandler :=
  ret (fun w r =>
         chain <- match i with
                  | Some ci =>
                      chainLoop (middlewares ci) (List.length (middlewares ci)) next
                  | None => ret next
                  end ;;
         chain w r).

Inductive RejectInjector : Type := mkRejectInjector.

Definition NewRejectInjector : option RejectInjector * option error :=
  (Some mkRejectInjector, None).

Definition RejectInjector_Handler (i : option RejectInjector)
  (next : HttpHandler) : M HttpHandler :=
  ret (fun w r => panic ErrAbortHandler).

Record ErrorInjector : Type := mkErrorInjector
  { statusCode : Z
  ; statusText : string }.

Definition isEmpty (s : string) : bool :=
  match s with
  | EmptyString => true
  | String _ _ => false
  end.

Definition NewErrorInjector (code : Z) : option ErrorInjector * option error :=
  let statusText := StatusText code in
  if isEmpty statusText then (None, Some ErrInvalidHTTPCode)
  else (Some (mkErrorInjector code statusText), None).

Definition ErrorInjector_Handler (i : option ErrorInjector)
  (next : HttpHandler) : M HttpHandler :=
  ret (fun w r =>
         match i with
         | Some e =>
             if negb (isEmpty (StatusText (statusCode e)))
             then http_Error w (statusText e) (statusCode e)
             else next w r
         | None => next w r
         end).

Record SlowInjector : Type := mkSlowInjector
  { duration : Duration
  ; sleep : option (Duration -> M unit) }.

Definition NewSlowInjector (d : Duration) : option SlowInjector * option error :=
  (Some (mkSlowInjector d (Some time_Sleep)), None).

Definition SlowInjector_Handler (i : option SlowInjector)
  (next : HttpHandler) : M HttpHandler :=
  ret (fun w r =>
         match i with
         | Some si =>
             match sleep si with
             | Some f => f (duration si)
             | None => ret tt
             end
         | None => ret tt
         end ;;
         next w r).

(** The pointer types that implement [Injector]. *)
Definition Injector_of_Fault (f : option Fault) : Injector :=
  mkInjector (Fault_Handler f).
Definition Injector_of_Chained (i : option ChainedInjector) : Injector :=
  mkInjector (ChainedInjector_Handler i).
Definition Injector_of_Reject (i : option RejectInjector) : Injector :=
  mkInjector (RejectInjector_Handler i).
Definition Injector_of_Error (i : option ErrorInjector) : Injector :=
  mkInjector (ErrorInjector_Handler i).
Definition Injector_of_Slow (i : option SlowInjector) : Injector :=
  mkInjector (SlowInjector_Handler i).

End FaultGo.

(* ================================================================== *)
(** ** The injectors with a reporter, and the random injector *)

Module InjectorGo.
Import Float32 Http Slice.

Inductive error : Type :=
| ErrInvalidHTTPCode.

(** Modelled from the spec: the [Reporter] capability is declared outside
    the files at hand.  It is a notification sink with the single method
    [report(request, message)]. *)
Definition Reporter : Type := Request -> string -> M unit.

(** Modelled from the spec: [reportWithMessage] is defined outside the files
    at hand.  It notifies the reporter, and an absent reporter degrades to
    doing nothing. *)
Definition reportWithMessage (r : option Reporter) (req : Request)
  (m : string) : M unit :=
  match r with
  | Some report => report req m
  | None => ret tt
  end.

(** Modelled from the spec: [updateRequestContextValue] is defined outside
    the files at hand.  It returns the request with one more tag attached to
    its context, and has no other effect. *)
Definition updateRequestContextValue (r : Request) (v : ContextValue)
  : Request :=
  mkRequest (req_id r) (req_ctx r ++ [v]).

(** The [Injector] interface.  [SetReporter] stores into the receiver and no
    function below calls it through the interface; the reporter is a field
    of each injector. *)
Record Injector : Type := mkInjector
  { Handler : HttpHandler -> M HttpHandler }.

Definition Middleware : Type := HttpHandler -> M HttpHandler.

Fixpoint appendHandlers (acc : list Middleware) (is' : list (option Injector))
  : Result (list Middleware) :=
  match is' with
  | [] => Ok acc
  | None :: _ =>
      Panic (RuntimeError "invalid memory address or nil pointer dereference")
  | Some i :: rest => appendHandlers (acc ++ [Handler i]) rest
  end.

Record RandomInjector : Type := mkRandomInjector
  { randF : option (Z -> M Z)
  ; middlewares : list Middleware
  ; reporter : option Reporter }.

Definition NewRandomInjector (is' : slice (option Injector))
  : Result (option RandomInjector * option error) :=
  match appendHandlers [] (elems is') with
  | Ok ms => Ok (Some (mkRandomInjector (Some rand_Intn) ms None), None)
  | Panic v => Panic v
  end.

(** Calling a function value; a nil one panics. *)
Definition call {A B : Type} (f : option (A -> M B)) (a : A) : M B :=
  match f with
  | Some g => g a
  | None =>
      panic (RuntimeError "invalid memory address or nil pointer dereference")
  end.

(** [ms[k]] for an [int] index, with the run-time bounds check. *)
Definition index (ms : list Middleware) (k : Z) : M Middleware :=
  if (k <? 0) || (Z.of_nat (List.length ms) <=? k)
  then panic (RuntimeError "index out of range")
  else match nth_error ms (Z.to_nat k) with
       | Some m => ret m
       | None => panic (RuntimeError "index out of range")
       end.

Definition RandomInjector_Handler (i : option RandomInjector)
  (next : HttpHandler) : M HttpHandler :=
  ret (fun w r =>
         match i with
         | Some ri =>
             if 0 <? Z.of_nat (List.length (middlewares ri)) then
               reportWithMessage (reporter ri) r "random injector: starting" ;;
               let r' := updateRequestContextValue r ContextValueRandomInjector in
               k <- call (randF ri) (Z.of_nat (List.length (middlewares ri))) ;;
               m <- index (middlewares ri) k ;;
               h <- m next ;;
               h w r'
             else next w r
         | None => next w r
         end).

Record RejectInjector : Type := mkRejectInjector
  { reject_reporter : option Reporter }.

Definition NewRejectInjector : option RejectInjector * option error :=
  (Some (mkRejectInjector None), None).

Definition RejectInjector_Handler (i : option RejectInjector)
  (next : HttpHandler) : M HttpHandler :=
  ret (fun w r =>
         match i with
         | Some ri =>
             reportWithMessage (reject_reporter ri) r "reject injector: starting"
         | None => ret tt
         end ;;
         panic ErrAbortHandler).

Record ErrorInjector : Type := mkErrorInjector
  { statusCode : Z
  ; statusText : string
  ; error_reporter : option Reporter }.

Definition NewErrorInjector (code : Z) : option ErrorInjector * option error :=
  let statusText := StatusText code in
  if FaultGo.isEmpty statusText then (None, Some ErrInvalidHTTPCode)
  else (Some (mkErrorInjector code statusText None), None).

Definition ErrorInjector_Handler (i : option ErrorInjector)
  (next : HttpHandler) : M HttpHandler :=
  ret (fun w r =>
         match i with
         | Some e =>
             reportWithMessage (error_reporter e) r "error injector: starting" ;;
             if negb (FaultGo.isEmpty (StatusText (statusCode e)))
             then http_Error w (statusText e) (statusCode e)
             else next w r
         | None => next w r
         end).

Record SlowInjector : Type := mkSlowInjector
  { duration : Duration
  ; slow_reporter : option Reporter
  ; sleep : option (Duration -> M unit) }.

Definition NewSlowInjector (d : Duration) : option SlowInjector * option error :=
  (Some (mkSlowInjector d None (Some time_Sleep)), None).

Definition SlowInjector_Handler (i : option SlowInjector)
  (next : HttpHandler) : M HttpHandler :=
  ret (fun w r =>
         match i with
         | Some si =>
             match sleep si with
             | Some f =>
                 reportWithMessage (slow_reporter si) r "slow injector: starting" ;;
                 f (duration si)
             | None => ret tt
             end
         | None => ret tt
         end ;;
         next w (updateRequestContextValue r ContextValueSlowInjector)).

Definition Injector_of_Random (i : option RandomInjector) : Injector :=
  mkInjector (RandomInjector_Handler i).
Definition Injector_of_Reject (i : option RejectInjector) : Injector :=
  mkInjector (RejectInjector_Handler i).
Definition Injector_of_Error (i : option ErrorInjector) : Injector :=
  mkInjector (ErrorInjector_Handler i).
Definition Injector_of_Slow (i : option SlowInjector) : Injector :=
  mkInjector (SlowInjector_Handler i).

(** The chain injector.  The closure that [ChainInjector.Handler] returns
    assigns to [next], the parameter of [Handler] that it captured: the
    variable is shared by all the calls of that closure.  A call of the
    closure is therefore a function of the value the variable holds, and
    gives, with its outcome, the value the variable holds afterwards. *)
Record ChainInjector : Type := mkChainInjector
  { chain_middlewares : list Middleware
  ; chain_reporter : option Reporter }.

Definition NewChainInjector (is' : slice (option Injector))
  : Result (option ChainInjector * option error) :=
  match appendHandlers [] (elems is') with
  | Ok ms => Ok (Some (mkChainInjector ms None), None)
  | Panic v => Panic v
  end.

Definition Captured : Type :=
  HttpHandler -> World -> Result unit * HttpHandler * World.

(** The loop [for idx := len - 1; idx >= 0; idx--] with its assignment
    [next = i.middlewares[idx](next)]; [n] is [idx + 1].  A panic leaves the
    variable at its last assigned value. *)
Fixpoint chainAssign (ms : list Middleware) (n : nat) : Captured :=
  fun next s =>
    match n with
    | O => (Ok tt, next, s)
    | S idx =>
        match index ms (Z.of_nat idx) s with
        | (Panic v, s1) => (Panic v, next, s1)
        | (Ok m, s1) =>
            match m next s1 with
            | (Panic v, s2) => (Panic v, next, s2)
            | (Ok next', s2) => chainAssign ms idx next' s2
            end
        end
    end.

(** One call of the closure returned by [ChainInjector.Handler]. *)
Definition ChainInjector_serve (i : option ChainInjector)
  (w : ResponseWriter) (r : Request) : Captured :=
  fun next s =>
    match i with
    | Some ci =>
        match reportWithMessage (chain_reporter ci) r
                "chain injector: starting" s with
        | (Panic v, s0) => (Panic v, next, s0)
        | (Ok _, s0) =>
            let r' := updateRequestContextValue r ContextValueChainInjector in
            match chainAssign (chain_middlewares ci)
                    (List.length (chain_middlewares ci)) next s0 with
            | (Panic v, next', s1) => (Panic v, next', s1)
            | (Ok _, next', s1) =>
                let (res, s2) := next' w r' s1 in (res, next', s2)
            end
        end
    | None => let (res, s1) := next w r s in (res, next, s1)
    end.

(** The closure: the captured variable, which starts as the argument of
    [Handler], and what a call does. *)
Record Closure : Type := mkClosure
  { captured : HttpHandler
  ; serve : ResponseWriter -> Request -> Captured }.

Definition ChainInjector_Handler (i : option ChainInjector)
  (next : HttpHandler) : Closure :=
  mkClosure next (ChainInjector_serve i).

(** Requests served one after the other by the same closure: the variable
    and the world after the last one.  The server recovers the panic of a
    request, and the next request finds the variable as it was left. *)
Fixpoint serveMany (c : ResponseWriter -> Request -> Captured)
  (reqs : list (ResponseWriter * Request)) (next : HttpHandler) (s : World)
  : HttpHandler * World :=
  match reqs with
  | [] => (next, s)
  | (w, r) :: rest =>
      match c w r next s with
      | (_, next', s') => serveMany c rest next' s'
      end
  end.

End InjectorGo.

(* ================================================================== *)
(** ** Vocabulary of the properties, and concrete inputs *)

Module Props.
Import Float32 Http Slice.

(** The world after some more effects. *)
Definition with_trace (s : World) (evs : list Event) : World :=
  mkWorld (float_src s) (int_src s) (rand_pos s) (trace s ++ evs).

(** Wrapping [next] is a transparent pass-through: wrapping leaves the world
    as it is, and the handler obtained does to every request, in every
    world, what [next] does. *)
Definition passes_through (wrapped : M HttpHandler) (next : HttpHandler)
  : Prop :=
  forall s, exists h,
    wrapped s = (Ok h, s) /\ forall w r s', h w r s' = next w r s'.

(** Wrapping gives a handler that aborts every exchange with
    [http.ErrAbortHandler] and leaves the world as it is. *)
Definition always_aborts (wrapped : M HttpHandler) : Prop :=
  forall s, exists h,
    wrapped s = (Ok h, s) /\
    forall w r s', h w r s' = (Panic ErrAbortHandler, s').

(** The effects of [http.Error(w, text, code)]. *)
Definition error_reply (w : ResponseWriter) (text : string) (code : Z)
  : list Event :=
  [ EvSetHeader w "Content-Type" "text/plain; charset=utf-8";
    EvSetHeader w "X-Content-Type-Options" "nosniff";
    EvWriteHeader w code;
    EvWrite w (String.append text newline) ].

(** An injector that acts on the request and then hands it to the next
    handler: the shape of an injector that does not end the request. *)
Definition before (a : HttpHandler) : FaultGo.Injector :=
  FaultGo.mkInjector (fun next => ret (fun w r => a w r ;; next w r)).

Definition never_aborts (a : HttpHandler) : Prop :=
  forall w r s, exists s', a w r s = (Ok tt, s').

(** The actions of a list, one after the other in list order. *)
Fixpoint run_in_order (acts : list HttpHandler) (w : ResponseWriter)
  (r : Request) : M unit :=
  match acts with
  | [] => ret tt
  | a :: rest => a w r ;; run_in_order rest w r
  end.

(** The wrap functions applied to [next] from the last to the first. *)
Fixpoint wrapAll (ms : list FaultGo.Middleware) (next : HttpHandler)
  : M HttpHandler :=
  match ms with
  | [] => ret next
  | m :: rest => h <- wrapAll rest next ;; m h
  end.

(** A handler that leaves its mark in the trace. *)
Definition served (tag : nat) : HttpHandler :=
  fun w r => emit (EvServed tag w r).

Definition req1 : Request := mkRequest 1 [].
Definition req2 : Request := mkRequest 2 [].

(** A world whose random source gives 0.25 first and 0.75 ever after. *)
Definition world0 : World :=
  mkWorld (fun n => match n with O => quarter | _ => three_quarters end)
          (fun n => Z.of_nat n + 7) 0 [].

Definition error503 : FaultGo.ErrorInjector :=
  FaultGo.mkErrorInjector 503 "Service Unavailable".

(** An enabled gate over the 503 injector, for half of the requests. *)
Definition gate_half : FaultGo.Fault :=
  FaultGo.mkFault
    (FaultGo.mkOptions true
       (Some (FaultGo.Injector_of_Error (Some error503))) half).

(** The same gate, disabled. *)
Definition gate_off : FaultGo.Fault :=
  FaultGo.mkFault
    (FaultGo.mkOptions false
       (Some (FaultGo.Injector_of_Error (Some error503))) half).

(** Options whose percentage is not a number. *)
Definition options_nan : FaultGo.Options :=
  FaultGo.mkOptions true (Some (FaultGo.Injector_of_Error (Some error503))) NaN.

Definition options_of (p : float32) : FaultGo.Options :=
  FaultGo.mkOptions true (Some (FaultGo.Injector_of_Error (Some error503))) p.

(** Serving two requests, one after the other, with the same handler. *)
Definition serve_twice (h : HttpHandler) : M unit :=
  h 1%nat req1 ;; h 2%nat req2.

(** The gate as the specification words it, to compare [Fault.Handler]
    with: the handler returned draws one sample for each request it serves,
    and hands the request to the injector's handler when the sample is below
    [p], to [next] otherwise. *)
Definition Spec_Handler (f : FaultGo.Fault) (next : HttpHandler)
  : M HttpHandler :=
  ret (fun w r =>
         if FaultGo.Enabled (FaultGo.opt f) then
           rn <- rand_Float32 ;;
           match lt rn (FaultGo.PercentOfRequests (FaultGo.opt f)),
                 FaultGo.Injector' (FaultGo.opt f) with
           | true, Some inj => h <- FaultGo.Handler inj next ;; h w r
           | _, _ => next w r
           end
         else next w r).

(** Two wrapped handlers that behave alike: wrapping leaves the world as it
    is in both, and the two handlers do the same to every request. *)
Definition same_handler (m1 m2 : M HttpHandler) : Prop :=
  forall s, exists h1 h2,
    m1 s = (Ok h1, s) /\ m2 s = (Ok h2, s) /\
    forall w r s', h1 w r s' = h2 w r s'.

(** The middlewares that [NewChainedInjector] stores for a list of non-nil
    injectors. *)
Definition handlers_of (injs : list FaultGo.Injector)
  : list FaultGo.Middleware :=
  map FaultGo.Handler injs.

(** Three injectors that leave the marks 1, 2 and 3. *)
Definition marks : list HttpHandler := [served 1; served 2; served 3].

(** Three sub-injectors for a random injector: slow, error, reject. *)
Definition random_subs : list InjectorGo.Injector :=
  [ InjectorGo.Injector_of_Slow
      (Some (InjectorGo.mkSlowInjector 2000 None (Some time_Sleep)));
    InjectorGo.Injector_of_Error
      (Some (InjectorGo.mkErrorInjector 503 "Service Unavailable" None));
    InjectorGo.Injector_of_Reject (Some (InjectorGo.mkRejectInjector None)) ].

(** [before], for the injectors with a reporter. *)
Definition before' (a : HttpHandler) : InjectorGo.Injector :=
  InjectorGo.mkInjector (fun next => ret (fun w r => a w r ;; next w r)).

(** The actions of [acts], [n] times over. *)
Fixpoint rounds (n : nat) (acts : list HttpHandler) : list HttpHandler :=
  match n with
  | O => []
  | S n' => acts ++ rounds n' acts
  end.

(** An injector whose wrapping has no effect of its own. *)
Definition pure_wrap (inj : FaultGo.Injector) : Prop :=
  exists g, forall next s, FaultGo.Handler inj next s = (Ok (g next), s).

(** An injector whose handler is [t] whatever the handler it wraps: it ends
    the request itself. *)
Definition ends_with (inj : FaultGo.Injector) (t : HttpHandler) : Prop :=
  forall next s, exists h,
    FaultGo.Handler inj next s = (Ok h, s) /\
    forall w r s', h w r s' = t w r s'.

(** A gate for a given percentage over the 503 injector. *)
Definition gate_of (p : float32) : FaultGo.Fault :=
  FaultGo.mkFault (options_of p).

(** A world whose random source always gives 0.25. *)
Definition world_quarter : World :=
  mkWorld (fun _ => quarter) (fun n => Z.of_nat n) 0 [].

End Props.

(* ================================================================== *)
(** ** Properties *)

Import Float32 Http Slice Props.

(** *** The monad *)

Lemma bind_ret_l {A B : Type} (a : A) (k : A -> M B) (s : World) :
  bind (ret a) k s = k a s.
Proof. reflexivity. Qed.

Lemma bind_ok {A B : Type} (m : M A) (k : A -> M B) (s s' : World) (a : A) :
  m s = (Ok a, s') -> bind m k s = k a s'.
Proof. intros E. unfold bind. now rewrite E. Qed.

Lemma bind_assoc {A B C : Type} (m : M A) (k : A -> M B) (k' : B -> M C)
  (s : World) :
  bind (bind m k) k' s = bind m (fun a => bind (k a) k') s.
Proof. unfold bind. destruct (m s) as [[a|v] s']; reflexivity. Qed.

Lemma http_Error_run (w : ResponseWriter) (text : string) (code : Z)
  (s : World) :
  http_Error w text code s = (Ok tt, with_trace s (error_reply w text code)).
Proof.
  unfold http_Error, bind, emit, with_trace, error_reply. simpl.
  repeat rewrite <- app_assoc. reflexivity.
Qed.

(** *** Comparisons of float32 values *)

Lemma lt_zero_of_le (r : float32) : le zero r = true -> lt r zero = false.
Proof.
  unfold le, lt, zero, SFleb, SFltb.
  destruct r as [sg|sg| |sg m e]; simpl; try reflexivity;
    destruct sg; simpl; congruence.
Qed.

Lemma compare_defined (x y : float32) :
  is_nan x = false -> is_nan y = false -> exists c, SFcompare x y = Some c.
Proof.
  destruct x as [sx|sx| |sx mx ex]; destruct y as [sy|sy| |sy my ey];
    simpl; intros; try discriminate; eexists; reflexivity.
Qed.

Lemma lt_zero_negb_le (p : float32) :
  is_nan p = false -> lt p zero = negb (le zero p).
Proof.
  unfold le, lt, zero, SFleb, SFltb.
  destruct p as [sg|sg| |sg m e]; simpl; intros; try discriminate;
    try reflexivity; destruct sg; reflexivity.
Qed.

Lemma gt_negb_le (p q : float32) :
  is_nan p = false -> is_nan q = false -> gt p q = negb (le p q).
Proof.
  intros Hp Hq. destruct (compare_defined p q Hp Hq) as [c E].
  unfold gt, le, SFleb. rewrite E. destruct c; reflexivity.
Qed.

(** Outside of NaN, the check of [NewFault] is the negation of the
    documented bounds. *)
Lemma out_of_bounds_check (p : float32) :
  is_nan p = false ->
  lt p zero || gt p one = negb (in_bounds p).
Proof.
  intros Hp. unfold in_bounds.
  rewrite (lt_zero_negb_le p Hp), (gt_negb_le p one Hp eq_refl).
  now rewrite negb_andb.
Qed.

(** *** The gate *)

(** What [Fault.Handler] does on an enabled gate: it draws one sample while
    it wraps, and decides there and then which handler it returns. *)
Lemma Fault_Handler_enabled (f : FaultGo.Fault) (next : HttpHandler)
  (s : World) :
  FaultGo.Enabled (FaultGo.opt f) = true ->
  FaultGo.Fault_Handler (Some f) next s =
    if lt (float_src s (rand_pos s)) (FaultGo.PercentOfRequests (FaultGo.opt f))
       && le (FaultGo.PercentOfRequests (FaultGo.opt f)) one
    then match FaultGo.Injector' (FaultGo.opt f) with
         | Some inj => FaultGo.Handler inj next (draw s)
         | None => (Ok next, draw s)
         end
    else (Ok next, draw s).
Proof.
  intros En. unfold FaultGo.Fault_Handler, FaultGo.percentDo. rewrite En.
  unfold bind, rand_Float32.
  destruct (lt _ _ && le _ _); simpl; [|reflexivity].
  destruct (FaultGo.Injector' (FaultGo.opt f)); reflexivity.
Qed.

(** With [p = 0] the handler returned is always [next]. *)
Lemma Fault_Handler_never (f : FaultGo.Fault) (next : HttpHandler)
  (s : World) :
  FaultGo.Enabled (FaultGo.opt f) = true ->
  FaultGo.PercentOfRequests (FaultGo.opt f) = zero ->
  in_unit (float_src s (rand_pos s)) = true ->
  FaultGo.Fault_Handler (Some f) next s = (Ok next, draw s).
Proof.
  intros En P R. rewrite (Fault_Handler_enabled f next s En), P.
  apply andb_true_iff in R. destruct R as [R0 _].
  now rewrite (lt_zero_of_le _ R0).
Qed.

(** With [p = 1] the handler returned is always the injector's. *)
Lemma Fault_Handler_always (f : FaultGo.Fault) (inj : FaultGo.Injector)
  (next : HttpHandler) (s : World) :
  FaultGo.Enabled (FaultGo.opt f) = true ->
  FaultGo.PercentOfRequests (FaultGo.opt f) = one ->
  FaultGo.Injector' (FaultGo.opt f) = Some inj ->
  in_unit (float_src s (rand_pos s)) = true ->
  FaultGo.Fault_Handler (Some f) next s = FaultGo.Handler inj next (draw s).
Proof.
  intros En P I R. rewrite (Fault_Handler_enabled f next s En), P, I.
  apply andb_true_iff in R. destruct R as [_ R1].
  fold (lt (float_src s (rand_pos s)) one) in R1. now rewrite R1.
Qed.

(** C1: [Fault.Handler] draws its random sample when it wraps [next], not
    when the handler it returns serves a request.  On the gate over the 503
    injector with [p = 0.5], in a world whose source gives 0.25 and then
    0.75, wrapping draws 0.25 and returns the injector's handler; serving
    two requests with it draws nothing more, and both get the 503 reply,
    the second one too, although the sample a fresh draw would have given
    it, 0.75, is not below [p]. *)
Theorem C1_sample_drawn_when_wrapping :
  exists h s1,
    FaultGo.Fault_Handler (Some gate_half) (served 0) world0 = (Ok h, s1) /\
    rand_pos world0 = 0%nat /\ rand_pos s1 = 1%nat /\
    lt (float_src world0 0%nat) half = true /\
    lt (float_src world0 1%nat) half = false /\
    (exists s3,
       serve_twice h s1 = (Ok tt, s3) /\
       rand_pos s3 = 1%nat /\
       trace s3 = error_reply 1%nat "Service Unavailable" 503
                  ++ error_reply 2%nat "Service Unavailable" 503) /\
    (exists h' s3',
       Spec_Handler gate_half (served 0) world0 = (Ok h', world0) /\
       serve_twice h' world0 = (Ok tt, s3') /\
       rand_pos s3' = 2%nat /\
       trace s3' = error_reply 1%nat "Service Unavailable" 503
                   ++ [EvServed 0 2%nat req2]).
Proof.
  do 2 eexists. split; [reflexivity|].
  repeat (split; [reflexivity|]).
  split.
  - eexists. repeat split; reflexivity.
  - do 2 eexists. repeat split; reflexivity.
Qed.

(** C10: a disabled gate is the downstream handler.  Whatever the injector
    and the percentage, [Fault.Handler(next)] on a gate with
    [Enabled = false] draws no sample and returns a handler that does to
    every request, in every world, exactly what [next] does. *)
Theorem C10_disabled_gate_is_next (f : FaultGo.Fault) (next : HttpHandler) :
  FaultGo.Enabled (FaultGo.opt f) = false ->
  passes_through (FaultGo.Fault_Handler (Some f) next) next.
Proof.
  intros Off s. unfold FaultGo.Fault_Handler. rewrite Off.
  exists (fun w r => next w r). split; reflexivity.
Qed.

Lemma C10_disabled_gate_witness :
  FaultGo.Enabled (FaultGo.opt gate_off) = false /\
  passes_through (FaultGo.Fault_Handler (Some gate_off) (served 0)) (served 0).
Proof.
  split; [reflexivity|].
  apply (C10_disabled_gate_is_next gate_off (served 0)). reflexivity.
Defined.

(** *** Construction of the gate *)

(** Apart from NaN, [NewFault] fails exactly when the injector is nil or
    the percentage is out of bounds, and a gate it returns holds the options
    it was given. *)
Lemma NewFault_spec (o : FaultGo.Options) :
  is_nan (FaultGo.PercentOfRequests o) = false ->
  match FaultGo.NewFault o with
  | (Some f, None) =>
      FaultGo.opt f = o /\
      FaultGo.Injector' o <> None /\
      in_bounds (FaultGo.PercentOfRequests o) = true
  | (None, Some e) =>
      (FaultGo.Injector' o = None /\ e = FaultGo.ErrNilInjector) \/
      (FaultGo.Injector' o <> None /\
       in_bounds (FaultGo.PercentOfRequests o) = false /\
       e = FaultGo.ErrInvalidPercent)
  | _ => False
  end.
Proof.
  intros Hp. unfold FaultGo.NewFault.
  destruct (FaultGo.Injector' o) as [inj|] eqn:I.
  - rewrite (out_of_bounds_check _ Hp).
    destruct (in_bounds (FaultGo.PercentOfRequests o)); simpl.
    + repeat split. discriminate.
    + right. repeat split. discriminate.
  - left. split; reflexivity.
Qed.

Lemma NewFault_examples :
  snd (FaultGo.NewFault (options_of minus_tenth)) = Some FaultGo.ErrInvalidPercent /\
  snd (FaultGo.NewFault (options_of one_and_tenth)) = Some FaultGo.ErrInvalidPercent /\
  FaultGo.NewFault (options_of zero) = (Some (FaultGo.mkFault (options_of zero)), None) /\
  FaultGo.NewFault (options_of one) = (Some (FaultGo.mkFault (options_of one)), None) /\
  is_float32 minus_tenth = true /\ is_float32 one_and_tenth = true /\
  is_float32 zero = true /\ is_float32 one = true.
Proof. repeat split; reflexivity. Qed.

(** C5: [NewFault] accepts a percentage that is not a number.  NaN is a
    float32, it is below 0.0 in no comparison and above 1.0 in none, so the
    check lets it through: construction succeeds with a non-nil injector,
    and the gate returned does not satisfy [0.0 <= p <= 1.0]. *)
Theorem C5_NewFault_accepts_NaN :
  is_float32 NaN = true /\
  FaultGo.NewFault options_nan = (Some (FaultGo.mkFault options_nan), None) /\
  in_bounds (FaultGo.PercentOfRequests options_nan) = false.
Proof. repeat split; reflexivity. Qed.

(** *** The reject injector *)

(** C8: the handler of a reject injector panics with
    [http.ErrAbortHandler] on every request.  The world is left as it was,
    so nothing is written to the response and [next], which the outcome
    does not depend on, is not run; and the outcome is neither a normal
    return nor a run-time error. *)
Theorem C8_reject_aborts (i : option FaultGo.RejectInjector)
  (next : HttpHandler) :
  always_aborts (FaultGo.RejectInjector_Handler i next) /\
  (forall next' s,
     FaultGo.RejectInjector_Handler i next' s =
     FaultGo.RejectInjector_Handler i next s) /\
  @Panic unit ErrAbortHandler <> Ok tt /\
  (forall msg, ErrAbortHandler <> RuntimeError msg).
Proof.
  repeat split; try discriminate.
  intros s. eexists. split; reflexivity.
Qed.

(** *** The slow injector *)

(** C9: a slow injector built with duration [d] calls its delay function
    once, with [d], and then the downstream handler.  [NewSlowInjector d]
    stores [d] and [time.Sleep]; whatever delay function [f] is plugged in
    its place, on every request the handler runs [f d] and, [f d] having
    returned, runs [next] in the world that [f d] left; with [time.Sleep]
    itself that world is the one before with the single effect [EvSleep d]
    added. *)
Theorem C9_slow_sleeps_then_next (d : Duration) (f : Duration -> M unit)
  (next : HttpHandler) (w : ResponseWriter) (r : Request) (s0 s1 : World) :
  f d s0 = (Ok tt, s1) ->
  exists si,
    FaultGo.NewSlowInjector d = (Some si, None) /\
    FaultGo.duration si = d /\
    FaultGo.sleep si = Some time_Sleep /\
    (forall s, exists h,
       FaultGo.SlowInjector_Handler
         (Some (FaultGo.mkSlowInjector (FaultGo.duration si) (Some f))) next s
       = (Ok h, s) /\
       h w r s0 = next w r s1) /\
    (forall s, exists h,
       FaultGo.SlowInjector_Handler (Some si) next s = (Ok h, s) /\
       h w r s0 = next w r (with_trace s0 [EvSleep d])).
Proof.
  intros F. eexists. split; [reflexivity|]. simpl.
  repeat split.
  - intros s. eexists. split; [reflexivity|].
    simpl. unfold bind. now rewrite F.
  - intros s. eexists. split; reflexivity.
Qed.

Lemma C9_slow_witness :
  time_Sleep 2000 world0 = (Ok tt, with_trace world0 [EvSleep 2000]) /\
  exists si,
    FaultGo.NewSlowInjector 2000 = (Some si, None) /\
    FaultGo.duration si = 2000 /\
    FaultGo.sleep si = Some time_Sleep /\
    (forall s, exists h,
       FaultGo.SlowInjector_Handler
         (Some (FaultGo.mkSlowInjector (FaultGo.duration si) (Some time_Sleep)))
         (served 0) s
       = (Ok h, s) /\
       h 1%nat req1 world0 =
       served 0 1%nat req1 (with_trace world0 [EvSleep 2000])) /\
    (forall s, exists h,
       FaultGo.SlowInjector_Handler (Some si) (served 0) s = (Ok h, s) /\
       h 1%nat req1 world0 =
       served 0 1%nat req1 (with_trace world0 [EvSleep 2000])).
Proof.
  split; [reflexivity|].
  apply (C9_slow_sleeps_then_next 2000 time_Sleep (served 0) 1%nat req1
           world0 (with_trace world0 [EvSleep 2000])).
  reflexivity.
Defined.

(** *** The error injector *)

(** C6: [NewErrorInjector code] fails, with [ErrInvalidHTTPCode], exactly
    when [http.StatusText code] is empty; otherwise it returns an injector
    whose handler, on every request, replies with [code] and its reason
    phrase and returns, whatever [next] is.  999 is refused; for 503 the
    reply is the status 503 and the text of Service Unavailable. *)
Theorem C6_error_injector (code : Z) (next : HttpHandler) :
  match FaultGo.NewErrorInjector code with
  | (None, Some e) =>
      e = FaultGo.ErrInvalidHTTPCode /\ StatusText code = EmptyString
  | (Some i, None) =>
      StatusText code <> EmptyString /\
      FaultGo.statusCode i = code /\
      FaultGo.statusText i = StatusText code /\
      forall s, exists h,
        FaultGo.ErrorInjector_Handler (Some i) next s = (Ok h, s) /\
        forall w r s',
          h w r s' = (Ok tt, with_trace s' (error_reply w (StatusText code) code))
  | _ => False
  end /\
  FaultGo.NewErrorInjector 999 = (None, Some FaultGo.ErrInvalidHTTPCode) /\
  FaultGo.NewErrorInjector 503 =
    (Some (FaultGo.mkErrorInjector 503 "Service Unavailable"), None).
Proof.
  split; [|split; reflexivity].
  unfold FaultGo.NewErrorInjector.
  destruct (StatusText code) as [|c t] eqn:T; simpl.
  - split; reflexivity.
  - split; [discriminate|]. repeat split.
    intros s. eexists. split; [reflexivity|].
    intros w r s'. simpl. rewrite T. simpl. apply http_Error_run.
Qed.

(** *** The chained injector *)

Lemma bind_ext_l {A B : Type} (m m' : M A) (k : A -> M B) (s : World) :
  m s = m' s -> bind m k s = bind m' k s.
Proof. intros E. unfold bind. now rewrite E. Qed.

Lemma bind_ext_r {A B : Type} (m : M A) (k k' : A -> M B) (s : World) :
  (forall a s', k a s' = k' a s') -> bind m k s = bind m k' s.
Proof. intros E. unfold bind. destruct (m s) as [[a|v] s']; auto. Qed.

Lemma wrapAll_snoc (ms : list FaultGo.Middleware) (m : FaultGo.Middleware)
  (next : HttpHandler) (s : World) :
  wrapAll (ms ++ [m]) next s = (h <- m next ;; wrapAll ms h) s.
Proof.
  revert s. induction ms as [|a ms IH]; intros s; simpl.
  - rewrite bind_ret_l. unfold bind, ret.
    destruct (m next s) as [[h|v] s']; reflexivity.
  - rewrite (bind_ext_l _ _ _ s (IH s)). apply bind_assoc.
Qed.

(** The loop of the chained handler, run down from the index [length pre],
    applies the wrap functions of [pre] from the last to the first. *)
Lemma chainLoop_prefix (pre post : list FaultGo.Middleware) :
  forall (next : HttpHandler) (s : World),
    FaultGo.chainLoop (pre ++ post) (List.length pre) next s =
    wrapAll pre next s.
Proof.
  revert post. induction pre as [|m pre IH] using rev_ind; intros post next s.
  - reflexivity.
  - rewrite wrapAll_snoc, length_app, Nat.add_comm. simpl.
    unfold FaultGo.index.
    rewrite <- app_assoc, nth_error_app2, Nat.sub_diag by lia. simpl.
    rewrite bind_ret_l. apply bind_ext_r. intros h s'. apply IH.
Qed.

Lemma chainLoop_wrapAll (ms : list FaultGo.Middleware) (next : HttpHandler)
  (s : World) :
  FaultGo.chainLoop ms (List.length ms) next s = wrapAll ms next s.
Proof.
  rewrite <- (app_nil_r ms) at 1. apply chainLoop_prefix.
Qed.

Lemma appendHandlers_Some (injs : list FaultGo.Injector) :
  forall acc,
    FaultGo.appendHandlers acc (map Some injs) = Ok (acc ++ handlers_of injs).
Proof.
  induction injs as [|i injs IH]; intros acc; simpl.
  - now rewrite app_nil_r.
  - rewrite IH, <- app_assoc. reflexivity.
Qed.

Lemma NewChainedInjector_Some (injs : list FaultGo.Injector) :
  FaultGo.NewChainedInjector (Some (map Some injs)) =
  Ok (Some (FaultGo.mkChainedInjector (handlers_of injs)), None).
Proof.
  unfold FaultGo.NewChainedInjector. now rewrite appendHandlers_Some.
Qed.

(** Wrapping with injectors that act and then go on gives the handler that
    acts in list order and then runs [next]. *)
Lemma wrapAll_before (acts : list HttpHandler) (next : HttpHandler)
  (s : World) :
  exists h,
    wrapAll (handlers_of (map before acts)) next s = (Ok h, s) /\
    forall w r s0, h w r s0 = (run_in_order acts w r ;; next w r) s0.
Proof.
  induction acts as [|a acts IH]; simpl.
  - exists next. split; reflexivity.
  - destruct IH as [h [E H]]. unfold bind at 1. rewrite E. simpl.
    eexists. split; [reflexivity|].
    intros w r s0. simpl. rewrite bind_assoc.
    apply bind_ext_r. intros _ s'. apply H.
Qed.

Lemma run_in_order_ok (acts : list HttpHandler) (w : ResponseWriter)
  (r : Request) :
  Forall never_aborts acts ->
  forall s0, exists s1, run_in_order acts w r s0 = (Ok tt, s1).
Proof.
  induction 1 as [|a acts Ha _ IH]; intros s0; simpl.
  - exists s0. reflexivity.
  - destruct (Ha w r s0) as [s' E]. destruct (IH s') as [s1 E1].
    exists s1. unfold bind. now rewrite E.
Qed.

(** The slow injector is one of the injectors that act and then go on. *)
Lemma slow_is_before (i : option FaultGo.SlowInjector) :
  FaultGo.Injector_of_Slow i =
  before (fun _ _ =>
            match i with
            | Some si =>
                match FaultGo.sleep si with
                | Some f => f (FaultGo.duration si)
                | None => ret tt
                end
            | None => ret tt
            end).
Proof. reflexivity. Qed.

(** C4: a chained injector runs its sub-injectors in the order they were
    given, then the downstream handler.  For every list of sub-injectors,
    the loop of the handler applies their wrap functions to [next] from the
    last to the first, so that the first one given is outermost.  For
    sub-injectors that act on the request and go on, none of them aborting,
    the handler therefore runs, on every request, the actions in list
    order, each to its end, and then [next] in the world they left. *)
Theorem C4_chain_runs_in_order (injs : list FaultGo.Injector)
  (acts : list HttpHandler) (next : HttpHandler) :
  Forall never_aborts acts ->
  (exists ci,
     FaultGo.NewChainedInjector (Some (map Some injs)) = Ok (Some ci, None) /\
     FaultGo.middlewares ci = handlers_of injs /\
     forall s,
       FaultGo.chainLoop (FaultGo.middlewares ci)
         (List.length (FaultGo.middlewares ci)) next s
       = wrapAll (handlers_of injs) next s) /\
  exists ci,
    FaultGo.NewChainedInjector (Some (map Some (map before acts)))
    = Ok (Some ci, None) /\
    forall s, exists h,
      FaultGo.ChainedInjector_Handler (Some ci) next s = (Ok h, s) /\
      forall w r s0, exists s1,
        run_in_order acts w r s0 = (Ok tt, s1) /\
        h w r s0 = next w r s1.
Proof.
  intros NA. split.
  { eexists. split; [apply NewChainedInjector_Some|]. simpl.
    split; [reflexivity|]. intros s. apply chainLoop_wrapAll. }
  eexists. split; [apply NewChainedInjector_Some|].
  intros s. eexists. split; [reflexivity|].
  intros w r s0. simpl.
  destruct (run_in_order_ok acts w r NA s0) as [s1 E1].
  exists s1. split; [exact E1|].
  destruct (wrapAll_before acts next s0) as [h [E H]].
  unfold bind at 1. rewrite chainLoop_wrapAll, E, H.
  unfold bind. now rewrite E1.
Qed.

Lemma C4_chain_witness :
  Forall never_aborts marks /\
  exists ci,
    FaultGo.NewChainedInjector (Some (map Some (map before marks)))
    = Ok (Some ci, None) /\
    forall s, exists h,
      FaultGo.ChainedInjector_Handler (Some ci) (served 0) s = (Ok h, s) /\
      forall w r s0, exists s1,
        run_in_order marks w r s0 = (Ok tt, s1) /\
        h w r s0 = served 0 w r s1.
Proof.
  assert (NA : Forall never_aborts marks).
  { repeat constructor; intros w r s; eexists; reflexivity. }
  split; [exact NA|].
  apply (C4_chain_runs_in_order (map before marks) marks (served 0) NA).
Defined.

(** The chain of the three marking injectors over a marking handler leaves
    the marks 1, 2, 3 and then 0. *)
Example chain_marks_trace :
  exists h,
    FaultGo.ChainedInjector_Handler
      (Some (FaultGo.mkChainedInjector (handlers_of (map before marks))))
      (served 0) world0 = (Ok h, world0) /\
    h 1%nat req1 world0 =
      (Ok tt, with_trace world0
                [EvServed 1 1%nat req1; EvServed 2 1%nat req1;
                 EvServed 3 1%nat req1; EvServed 0 1%nat req1]).
Proof. eexists. split; reflexivity. Qed.

(** A reject injector in second place ends the request there: the first
    mark is left, the third and the downstream handler's are not. *)
Example chain_reject_stops :
  exists h,
    FaultGo.ChainedInjector_Handler
      (Some (FaultGo.mkChainedInjector
               (handlers_of [before (served 1);
                             FaultGo.Injector_of_Reject (Some FaultGo.mkRejectInjector);
                             before (served 3)])))
      (served 0) world0 = (Ok h, world0) /\
    h 1%nat req1 world0 =
      (Panic ErrAbortHandler, with_trace world0 [EvServed 1 1%nat req1]).
Proof. eexists. split; reflexivity. Qed.

(** The empty chain, from a slice that is empty but not nil or from the nil
    pointer, is a pass-through. *)
Lemma empty_chain_passes_through (next : HttpHandler) :
  passes_through
    (FaultGo.ChainedInjector_Handler (Some (FaultGo.mkChainedInjector [])) next)
    next /\
  passes_through (FaultGo.ChainedInjector_Handler None next) next.
Proof. split; intros s; eexists; split; reflexivity. Qed.

(** C2, as the specification states it, fails on a call with no argument:
    [NewChainedInjector()] receives the nil slice and returns no injector. *)
Lemma C2_no_argument_counterexample :
  ~ exists ci,
      FaultGo.NewChainedInjector (variadic (@nil (option FaultGo.Injector)))
      = Ok (Some ci, None).
Proof. intros [ci E]. discriminate E. Qed.

(** C2 (amended): constructing a chained injector from an empty slice that
    is not nil succeeds, and the handler of the injector obtained behaves as
    [next] on every request.  From the nil slice, which is what a call with
    no argument passes, construction fails with [ErrNilInjector] and returns
    the nil pointer, whose handler also behaves as [next]. *)
Theorem C2_empty_chain (next : HttpHandler) :
  (exists ci,
     FaultGo.NewChainedInjector (Some []) = Ok (Some ci, None) /\
     FaultGo.middlewares ci = [] /\
     passes_through (FaultGo.ChainedInjector_Handler (Some ci) next) next) /\
  variadic (@nil (option FaultGo.Injector)) = nil_slice /\
  FaultGo.NewChainedInjector nil_slice = Ok (None, Some FaultGo.ErrNilInjector) /\
  passes_through (FaultGo.ChainedInjector_Handler None next) next.
Proof.
  destruct (empty_chain_passes_through next) as [P0 P1].
  split; [|repeat split; exact P1].
  eexists. split; [reflexivity|]. split; [reflexivity|]. exact P0.
Qed.

(** *** Nil receivers and nil reporters *)

(** C3, as the specification states it, fails for the reject injector and
    for the reporter: the handler of a nil [*RejectInjector] aborts the
    exchange instead of running [next], and an error injector whose reporter
    is nil replies with its status instead of running [next]. *)
Lemma C3_nil_reject_counterexample :
  ~ passes_through (FaultGo.RejectInjector_Handler None (served 0)) (served 0) /\
  ~ passes_through
      (InjectorGo.ErrorInjector_Handler
         (Some (InjectorGo.mkErrorInjector 503 "Service Unavailable" None))
         (served 0))
      (served 0).
Proof.
  split; intros P; destruct (P world0) as [h [E H]];
    inversion E; subst; clear E;
    specialize (H 1%nat req1 world0); discriminate H.
Qed.

(** C3 (amended): the handler produced by a nil [*Fault], a nil
    [*ChainedInjector], a nil [*ErrorInjector] or a nil [*SlowInjector]
    delegates transparently to [next], for every [next] and every request.
    The handler of a nil [*RejectInjector] aborts the exchange with
    [http.ErrAbortHandler], as that of a non-nil one.  A nil reporter makes
    the start report do nothing: with it an injector does what the injector
    without a reporter does (the error injector replies, the reject
    injector aborts, the slow injector sleeps and hands the tagged request
    to [next]). *)
Theorem C3_nil_receivers (next : HttpHandler) :
  passes_through (FaultGo.Fault_Handler None next) next /\
  passes_through (FaultGo.ChainedInjector_Handler None next) next /\
  passes_through (FaultGo.ErrorInjector_Handler None next) next /\
  passes_through (FaultGo.SlowInjector_Handler None next) next /\
  always_aborts (FaultGo.RejectInjector_Handler None next) /\
  (forall req msg s, InjectorGo.reportWithMessage None req msg s = (Ok tt, s)) /\
  (forall code text,
     same_handler
       (InjectorGo.ErrorInjector_Handler
          (Some (InjectorGo.mkErrorInjector code text None)) next)
       (FaultGo.ErrorInjector_Handler
          (Some (FaultGo.mkErrorInjector code text)) next)) /\
  always_aborts
    (InjectorGo.RejectInjector_Handler
       (Some (InjectorGo.mkRejectInjector None)) next) /\
  (forall d f,
     same_handler
       (InjectorGo.SlowInjector_Handler
          (Some (InjectorGo.mkSlowInjector d None f)) next)
       (FaultGo.SlowInjector_Handler
          (Some (FaultGo.mkSlowInjector d f))
          (fun w r =>
             next w (InjectorGo.updateRequestContextValue
                       r ContextValueSlowInjector)))).
Proof.
  split. { intros s. eexists. split; reflexivity. }
  split. { intros s. eexists. split; reflexivity. }
  split. { intros s. eexists. split; reflexivity. }
  split. { intros s. eexists. split; reflexivity. }
  split. { intros s. eexists. split; reflexivity. }
  split. { reflexivity. }
  split. { intros code text s. do 2 eexists. repeat split. }
  split. { intros s. eexists. split; reflexivity. }
  intros d f s. do 2 eexists. split; [reflexivity|]. split; [reflexivity|].
  intros w r s'. simpl. destruct f as [g|]; reflexivity.
Qed.

(** *** The random injector *)

Lemma appendHandlers_random (injs : list InjectorGo.Injector) :
  forall acc,
    InjectorGo.appendHandlers acc (map Some injs)
    = Ok (acc ++ map InjectorGo.Handler injs).
Proof.
  induction injs as [|i injs IH]; intros acc; simpl.
  - now rewrite app_nil_r.
  - rewrite IH, <- app_assoc. reflexivity.
Qed.

(** An index within the bounds selects the element at that place. *)
Lemma index_in_range (injs : list InjectorGo.Injector) (k : Z) (s : World) :
  0 <= k < Z.of_nat (List.length injs) ->
  exists inj,
    nth_error injs (Z.to_nat k) = Some inj /\
    InjectorGo.index (map InjectorGo.Handler injs) k s
    = (Ok (InjectorGo.Handler inj), s).
Proof.
  intros R. unfold InjectorGo.index. rewrite length_map.
  replace (k <? 0) with false by (symmetry; apply Z.ltb_ge; lia).
  replace (Z.of_nat (List.length injs) <=? k) with false
    by (symmetry; apply Z.leb_gt; lia).
  simpl.
  destruct (nth_error injs (Z.to_nat k)) as [inj|] eqn:E.
  - exists inj. split; [reflexivity|].
    rewrite nth_error_map, E. reflexivity.
  - apply nth_error_None in E. lia.
Qed.

(** What the handler of a random injector over a non-empty list does once
    the report has returned and the random source has given an index within
    the bounds: it runs the handler of the sub-injector at that index, and
    of no other, on the tagged request. *)
Lemma random_selects (f : Z -> M Z) (rep : option InjectorGo.Reporter)
  (injs : list InjectorGo.Injector) (next : HttpHandler)
  (w : ResponseWriter) (r : Request) (s s0 s1 : World) (k : Z) :
  InjectorGo.reportWithMessage rep r "random injector: starting" s = (Ok tt, s0) ->
  f (Z.of_nat (List.length injs)) s0 = (Ok k, s1) ->
  0 <= k < Z.of_nat (List.length injs) ->
  exists h inj,
    InjectorGo.RandomInjector_Handler
      (Some (InjectorGo.mkRandomInjector (Some f)
               (map InjectorGo.Handler injs) rep)) next s
    = (Ok h, s) /\
    nth_error injs (Z.to_nat k) = Some inj /\
    h w r s =
      (h' <- InjectorGo.Handler inj next ;;
       h' w (InjectorGo.updateRequestContextValue r ContextValueRandomInjector))
        s1.
Proof.
  intros Rep F R.
  destruct (index_in_range injs k s1 R) as [inj [N I]].
  eexists. exists inj. split; [reflexivity|]. split; [exact N|].
  simpl. rewrite length_map.
  replace (0 <? Z.of_nat (List.length injs)) with true
    by (symmetry; apply Z.ltb_lt; lia).
  rewrite (bind_ok _ _ _ _ _ Rep). simpl.
  rewrite (bind_ok _ _ _ _ _ F), (bind_ok _ _ _ _ _ I).
  reflexivity.
Qed.

(** C7: the handler of a random injector over N sub-injectors asks the
    random source once for an index of [[0, N)] and runs the handler of the
    sub-injector at that index, and of no other; over no sub-injector it
    runs [next].  [NewRandomInjector] stores the wrap functions of the
    sub-injectors in order, [rand.Intn] as the source and no reporter.  With
    that source, a request makes one draw, which gives an index [k] of
    [[0, N)], and is served by the [k]-th sub-injector's handler over
    [next], on the tagged request.  With any source and reporter plugged in
    their place, once the report has returned and the source has given [k]
    within the bounds, it is again the [k]-th sub-injector's handler that
    serves the request. *)
Theorem C7_random_injector (injs : list InjectorGo.Injector)
  (next : HttpHandler) (w : ResponseWriter) (r : Request) (s : World) :
  exists ri,
    InjectorGo.NewRandomInjector (Some (map Some injs)) = Ok (Some ri, None) /\
    InjectorGo.middlewares ri = map InjectorGo.Handler injs /\
    InjectorGo.randF ri = Some rand_Intn /\
    InjectorGo.reporter ri = None /\
    (exists h,
       InjectorGo.RandomInjector_Handler (Some ri) next s = (Ok h, s) /\
       match injs with
       | [] => h w r s = next w r s
       | _ :: _ =>
           exists k inj,
             k = int_src s (rand_pos s) mod Z.of_nat (List.length injs) /\
             0 <= k < Z.of_nat (List.length injs) /\
             nth_error injs (Z.to_nat k) = Some inj /\
             h w r s =
               (h' <- InjectorGo.Handler inj next ;;
                h' w (InjectorGo.updateRequestContextValue
                        r ContextValueRandomInjector)) (draw s)
       end) /\
    (forall f rep s0 s1 k,
       rep r "random injector: starting" s = (Ok tt, s0) ->
       f (Z.of_nat (List.length injs)) s0 = (Ok k, s1) ->
       0 <= k < Z.of_nat (List.length injs) ->
       exists h inj,
         InjectorGo.RandomInjector_Handler
           (Some (InjectorGo.mkRandomInjector (Some f)
                    (InjectorGo.middlewares ri) (Some rep))) next s
         = (Ok h, s) /\
         nth_error injs (Z.to_nat k) = Some inj /\
         h w r s =
           (h' <- InjectorGo.Handler inj next ;;
            h' w (InjectorGo.updateRequestContextValue
                    r ContextValueRandomInjector)) s1).
Proof.
  eexists. split.
  { unfold InjectorGo.NewRandomInjector. simpl.
    rewrite appendHandlers_random. reflexivity. }
  simpl. repeat (split; [reflexivity|]). split.
  - destruct injs as [|i0 injs'] eqn:L.
    + eexists. split; reflexivity.
    + rewrite <- L.
      assert (Pos : 0 < Z.of_nat (List.length injs)) by (subst; simpl; lia).
      set (n := Z.of_nat (List.length injs)) in *.
      assert (R : 0 <= int_src s (rand_pos s) mod n < n)
        by (apply Z.mod_pos_bound; exact Pos).
      assert (F : rand_Intn n s = (Ok (int_src s (rand_pos s) mod n), draw s)).
      { unfold rand_Intn.
        replace (n <=? 0) with false by (symmetry; apply Z.leb_gt; lia).
        reflexivity. }
      destruct (random_selects rand_Intn None injs next w r s s _ _
                  eq_refl F R) as [h [inj [E [N H]]]].
      exists h. split; [exact E|].
      exists (int_src s (rand_pos s) mod n), inj.
      split; [reflexivity|]. split; [exact R|]. split; [exact N|exact H].
  - intros f rep s0 s1 k Rep F R.
    apply (random_selects f (Some rep) injs next w r s s0 s1 k Rep F R).
Qed.

Lemma C7_random_witness :
  exists ri,
    InjectorGo.NewRandomInjector (Some (map Some random_subs))
    = Ok (Some ri, None) /\
    exists h inj,
      InjectorGo.RandomInjector_Handler
        (Some (InjectorGo.mkRandomInjector (Some (fun _ => ret 1))
                 (InjectorGo.middlewares ri) (Some (fun _ _ => ret tt))))
        (served 0) world0
      = (Ok h, world0) /\
      nth_error random_subs (Z.to_nat 1) = Some inj /\
      h 1%nat req1 world0 =
        (h' <- InjectorGo.Handler inj (served 0) ;;
         h' 1%nat (InjectorGo.updateRequestContextValue
                     req1 ContextValueRandomInjector)) world0.
Proof.
  destruct (C7_random_injector random_subs (served 0) 1%nat req1 world0)
    as [ri [E [_ [_ [_ [_ P]]]]]].
  exists ri. split; [exact E|].
  apply (P (fun _ => ret 1) (fun _ _ => ret tt) world0 world0 1).
  - reflexivity.
  - reflexivity.
  - simpl. lia.
Defined.

(** With the second of three sub-injectors selected, the request gets the
    503 reply: the slow injector before it and the reject injector after it
    leave no effect, nor does the downstream handler. *)
Example random_selects_second :
  exists h,
    InjectorGo.RandomInjector_Handler
      (Some (InjectorGo.mkRandomInjector (Some (fun _ => ret 1))
               (map InjectorGo.Handler random_subs) None))
      (served 0) world0
    = (Ok h, world0) /\
    h 1%nat req1 world0 =
      (Ok tt, with_trace world0 (error_reply 1%nat "Service Unavailable" 503)).
Proof. eexists. split; reflexivity. Qed.

(* ================================================================== *)
(** ** Further properties of the code *)

(** *** Order of float32 values *)

Ltac cmp_cases :=
  simpl; try (intros; (discriminate || reflexivity || lia || congruence)).

Lemma lt_le_trans (x y z : float32) :
  lt x y = true -> le y z = true -> lt x z = true.
Proof.
  unfold lt, le, SFltb, SFleb.
  destruct x as [sx|sx| |sx mx ex]; destruct y as [sy|sy| |sy my ey];
    destruct z as [sz|sz| |sz mz ez]; cmp_cases;
    try destruct sx; try destruct sy; try destruct sz; cmp_cases;
    change (Pos.compare_cont Eq mx my) with (Pos.compare mx my);
    change (Pos.compare_cont Eq my mz) with (Pos.compare my mz);
    change (Pos.compare_cont Eq mx mz) with (Pos.compare mx mz);
    destruct (Z.compare_spec ex ey); destruct (Z.compare_spec ey ez);
    destruct (Z.compare_spec ex ez); cmp_cases; subst;
    destruct (Pos.compare_spec mx my); destruct (Pos.compare_spec my mz);
    destruct (Pos.compare_spec mx mz); cmp_cases.
Qed.

Lemma lt_not_nan (r p : float32) : lt r p = true -> is_nan p = false.
Proof.
  unfold lt, SFltb.
  destruct r as [sr|sr| |sr mr er]; destruct p as [sp|sp| |sp mp ep];
    simpl; intros; try discriminate; reflexivity.
Qed.

Lemma le_zero_of_lt (r p : float32) :
  le zero r = true -> lt r p = true -> le zero p = true.
Proof.
  unfold le, lt, zero, SFleb, SFltb.
  destruct r as [sr|sr| |sr mr er]; destruct p as [sp|sp| |sp mp ep];
    cmp_cases; try destruct sr; try destruct sp; cmp_cases.
Qed.

(** *** The gate, as the code decides *)

(** X1: on an enabled gate that [NewFault] built, a call of
    [Fault.Handler(next)] draws one sample [r] and returns the injector's
    handler over [next] when [r < p], and [next] otherwise; the two further
    tests of the code, on [p <= 1.0] and on the injector, never change the
    outcome for such a gate. *)
Theorem X1_built_gate_decides (o : FaultGo.Options) (f : FaultGo.Fault)
  (next : HttpHandler) (s : World) :
  FaultGo.NewFault o = (Some f, None) ->
  FaultGo.Enabled o = true ->
  exists inj,
    FaultGo.Injector' o = Some inj /\
    FaultGo.Fault_Handler (Some f) next s =
      if lt (float_src s (rand_pos s)) (FaultGo.PercentOfRequests o)
      then FaultGo.Handler inj next (draw s)
      else (Ok next, draw s).
Proof.
  unfold FaultGo.NewFault. intros N En.
  destruct (FaultGo.Injector' o) as [inj|] eqn:I; [|discriminate N].
  destruct (lt (FaultGo.PercentOfRequests o) zero
            || gt (FaultGo.PercentOfRequests o) one) eqn:C; [discriminate N|].
  inversion N; subst f; clear N.
  exists inj. split; [reflexivity|].
  rewrite Fault_Handler_enabled by exact En. simpl. rewrite I.
  destruct (lt (float_src s (rand_pos s)) (FaultGo.PercentOfRequests o)) eqn:L;
    [|reflexivity].
  apply orb_false_iff in C. destruct C as [_ G].
  rewrite (gt_negb_le _ one (lt_not_nan _ _ L) eq_refl) in G.
  apply negb_false_iff in G. now rewrite G.
Qed.

Lemma X1_built_gate_witness :
  FaultGo.NewFault (options_of half) = (Some (gate_of half), None) /\
  FaultGo.Enabled (options_of half) = true /\
  exists inj,
    FaultGo.Injector' (options_of half) = Some inj /\
    FaultGo.Fault_Handler (Some (gate_of half)) (served 0) world0 =
      if lt (float_src world0 (rand_pos world0))
            (FaultGo.PercentOfRequests (options_of half))
      then FaultGo.Handler inj (served 0) (draw world0)
      else (Ok (served 0), draw world0).
Proof.
  split; [reflexivity|]. split; [reflexivity|].
  apply (X1_built_gate_decides (options_of half) (gate_of half) (served 0)
           world0); reflexivity.
Defined.

(** X2: whatever sample of [[0, 1)] the source gives, an enabled gate with
    [p = 0] returns [next] and an enabled gate with [p = 1] returns the
    injector's handler over [next]. *)
Theorem X2_gate_extremes (inj : FaultGo.Injector) (next : HttpHandler)
  (s : World) :
  in_unit (float_src s (rand_pos s)) = true ->
  FaultGo.Fault_Handler
    (Some (FaultGo.mkFault (FaultGo.mkOptions true (Some inj) zero))) next s
  = (Ok next, draw s) /\
  FaultGo.Fault_Handler
    (Some (FaultGo.mkFault (FaultGo.mkOptions true (Some inj) one))) next s
  = FaultGo.Handler inj next (draw s).
Proof.
  intros R. split.
  - apply Fault_Handler_never; [reflexivity|reflexivity|exact R].
  - apply Fault_Handler_always; [reflexivity|reflexivity|reflexivity|exact R].
Qed.

Lemma X2_gate_extremes_witness :
  in_unit (float_src world0 (rand_pos world0)) = true /\
  FaultGo.Fault_Handler
    (Some (FaultGo.mkFault
             (FaultGo.mkOptions true
                (Some (FaultGo.Injector_of_Error (Some error503))) zero)))
    (served 0) world0
  = (Ok (served 0), draw world0) /\
  FaultGo.Fault_Handler
    (Some (FaultGo.mkFault
             (FaultGo.mkOptions true
                (Some (FaultGo.Injector_of_Error (Some error503))) one)))
    (served 0) world0
  = FaultGo.Handler (FaultGo.Injector_of_Error (Some error503)) (served 0)
      (draw world0).
Proof.
  split; [reflexivity|].
  apply (X2_gate_extremes (FaultGo.Injector_of_Error (Some error503))
           (served 0) world0).
  reflexivity.
Defined.

(** X3: [percentDo] answers false for every percentage outside [[0.0, 1.0]],
    NaN included, whatever sample of [[0, 1)] it draws: such a gate never
    injects. *)
Theorem X3_percentDo_out_of_bounds (f : FaultGo.Fault) (s : World) :
  in_bounds (FaultGo.PercentOfRequests (FaultGo.opt f)) = false ->
  in_unit (float_src s (rand_pos s)) = true ->
  FaultGo.percentDo f s = (Ok false, draw s).
Proof.
  intros B R. unfold FaultGo.percentDo, bind, rand_Float32.
  apply andb_true_iff in R. destruct R as [R0 _].
  destruct (lt (float_src s (rand_pos s))
              (FaultGo.PercentOfRequests (FaultGo.opt f))) eqn:L;
    [|reflexivity].
  unfold in_bounds in B. rewrite (le_zero_of_lt _ _ R0 L) in B.
  simpl in B. rewrite B. reflexivity.
Qed.

Lemma X3_percentDo_witness :
  in_bounds (FaultGo.PercentOfRequests (FaultGo.opt (gate_of one_and_tenth)))
  = false /\
  in_unit (float_src world0 (rand_pos world0)) = true /\
  FaultGo.percentDo (gate_of one_and_tenth) world0 = (Ok false, draw world0).
Proof.
  split; [reflexivity|]. split; [reflexivity|].
  apply (X3_percentDo_out_of_bounds (gate_of one_and_tenth) world0);
    reflexivity.
Defined.

(** X4: [percentDo] is monotone in the percentage: a sample that makes a
    gate inject makes every gate with a higher percentage, up to 1.0,
    inject too. *)
Theorem X4_percentDo_monotone (f f' : FaultGo.Fault) (s : World) :
  le (FaultGo.PercentOfRequests (FaultGo.opt f))
     (FaultGo.PercentOfRequests (FaultGo.opt f')) = true ->
  le (FaultGo.PercentOfRequests (FaultGo.opt f')) one = true ->
  FaultGo.percentDo f s = (Ok true, draw s) ->
  FaultGo.percentDo f' s = (Ok true, draw s).
Proof.
  intros LE B. unfold FaultGo.percentDo, bind, rand_Float32.
  destruct (lt (float_src s (rand_pos s))
              (FaultGo.PercentOfRequests (FaultGo.opt f))) eqn:L;
    simpl; [|discriminate].
  intros _. rewrite (lt_le_trans _ _ _ L LE), B. reflexivity.
Qed.

Lemma X4_percentDo_monotone_witness :
  le (FaultGo.PercentOfRequests (FaultGo.opt (gate_of half)))
     (FaultGo.PercentOfRequests (FaultGo.opt (gate_of three_quarters)))
  = true /\
  le (FaultGo.PercentOfRequests (FaultGo.opt (gate_of three_quarters))) one
  = true /\
  FaultGo.percentDo (gate_of half) world0 = (Ok true, draw world0) /\
  FaultGo.percentDo (gate_of three_quarters) world0 = (Ok true, draw world0).
Proof.
  split; [reflexivity|]. split; [reflexivity|]. split; [reflexivity|].
  apply (X4_percentDo_monotone (gate_of half) (gate_of three_quarters) world0);
    reflexivity.
Defined.

(** X5: apart from NaN, [NewFault] fails exactly when the injector is nil,
    with [ErrNilInjector], or else when the percentage is outside
    [[0.0, 1.0]], with [ErrInvalidPercent]; the gate it returns otherwise
    holds the options as given, with a non-nil injector and a percentage
    within the bounds. *)
Theorem X5_NewFault_outcome (o : FaultGo.Options) :
  is_nan (FaultGo.PercentOfRequests o) = false ->
  match FaultGo.NewFault o with
  | (Some f, None) =>
      FaultGo.opt f = o /\
      FaultGo.Injector' o <> None /\
      in_bounds (FaultGo.PercentOfRequests o) = true
  | (None, Some e) =>
      (FaultGo.Injector' o = None /\ e = FaultGo.ErrNilInjector) \/
      (FaultGo.Injector' o <> None /\
       in_bounds (FaultGo.PercentOfRequests o) = false /\
       e = FaultGo.ErrInvalidPercent)
  | _ => False
  end.
Proof.
  intros Hp. unfold FaultGo.NewFault.
  destruct (FaultGo.Injector' o) as [inj|] eqn:I.
  - rewrite (out_of_bounds_check _ Hp).
    destruct (in_bounds (FaultGo.PercentOfRequests o)); simpl.
    + split; [reflexivity|]. split; [discriminate|reflexivity].
    + right. split; [discriminate|]. split; reflexivity.
  - left. split; reflexivity.
Qed.

Lemma X5_NewFault_outcome_witness :
  is_nan (FaultGo.PercentOfRequests (options_of one_and_tenth)) = false /\
  match FaultGo.NewFault (options_of one_and_tenth) with
  | (Some f, None) =>
      FaultGo.opt f = options_of one_and_tenth /\
      FaultGo.Injector' (options_of one_and_tenth) <> None /\
      in_bounds (FaultGo.PercentOfRequests (options_of one_and_tenth)) = true
  | (None, Some e) =>
      (FaultGo.Injector' (options_of one_and_tenth) = None /\
       e = FaultGo.ErrNilInjector) \/
      (FaultGo.Injector' (options_of one_and_tenth) <> None /\
       in_bounds (FaultGo.PercentOfRequests (options_of one_and_tenth)) = false /\
       e = FaultGo.ErrInvalidPercent)
  | _ => False
  end.
Proof.
  split; [reflexivity|].
  apply (X5_NewFault_outcome (options_of one_and_tenth)). reflexivity.
Defined.

(** *** Chains *)

Lemma wrapAll_app (ms1 ms2 : list FaultGo.Middleware) (next : HttpHandler)
  (s : World) :
  wrapAll (ms1 ++ ms2) next s = (h <- wrapAll ms2 next ;; wrapAll ms1 h) s.
Proof.
  revert s. induction ms1 as [|m ms1 IH]; intros s; simpl.
  - unfold bind, ret. destruct (wrapAll ms2 next s) as [[h|v] s']; reflexivity.
  - rewrite (bind_ext_l _ _ _ s (IH s)). apply bind_assoc.
Qed.

Lemma wrapAll_pure (rest : list FaultGo.Injector) (next : HttpHandler)
  (s : World) :
  Forall pure_wrap rest ->
  exists h, wrapAll (handlers_of rest) next s = (Ok h, s).
Proof.
  induction 1 as [|inj rest [g G] _ [h E]]; simpl.
  - exists next. reflexivity.
  - exists (g h). unfold bind. rewrite E. apply G.
Qed.

(** On the pointwise behaviour of the handler it wraps, the handler that
    [wrapAll] gives for acting injectors depends only. *)
Lemma wrapAll_before_ext (acts : list HttpHandler) (next t : HttpHandler)
  (s : World) :
  (forall w r s', next w r s' = t w r s') ->
  exists h,
    wrapAll (handlers_of (map before acts)) next s = (Ok h, s) /\
    forall w r s0, h w r s0 = (run_in_order acts w r ;; t w r) s0.
Proof.
  intros T. destruct (wrapAll_before acts next s) as [h [E H]].
  exists h. split; [exact E|].
  intros w r s0. rewrite H. apply bind_ext_r. intros _ s'. apply T.
Qed.

Lemma wrapAll_cut (acts : list HttpHandler) (inj : FaultGo.Injector)
  (t : HttpHandler) (rest : list FaultGo.Injector) (next : HttpHandler)
  (s : World) :
  ends_with inj t ->
  Forall pure_wrap rest ->
  exists h,
    wrapAll (handlers_of (map before acts ++ inj :: rest)) next s = (Ok h, s) /\
    forall w r s0, h w r s0 = (run_in_order acts w r ;; t w r) s0.
Proof.
  intros T P.
  destruct (wrapAll_pure rest next s P) as [hr Er].
  destruct (T hr s) as [ht [Et Ht]].
  assert (X : wrapAll (handlers_of (inj :: rest)) next s = (Ok ht, s)).
  { simpl. fold (handlers_of rest). now rewrite (bind_ok _ _ _ _ _ Er). }
  unfold handlers_of at 1. rewrite map_app.
  fold (handlers_of (map before acts)). fold (handlers_of (inj :: rest)).
  rewrite wrapAll_app, (bind_ok _ _ _ _ _ X).
  apply wrapAll_before_ext. exact Ht.
Qed.

(** X6: a sub-injector that ends the request cuts the chain.  When the
    sub-injectors before it act and go on, and those after it wrap without
    effect, the chained handler runs the actions before it in order, then
    its handler, and nothing of what comes after: neither the later
    sub-injectors nor the downstream handler. *)
Theorem X6_chain_cut (acts : list HttpHandler) (inj : FaultGo.Injector)
  (t : HttpHandler) (rest : list FaultGo.Injector) (next : HttpHandler) :
  ends_with inj t ->
  Forall pure_wrap rest ->
  forall s, exists h,
    FaultGo.ChainedInjector_Handler
      (Some (FaultGo.mkChainedInjector
               (handlers_of (map before acts ++ inj :: rest)))) next s
    = (Ok h, s) /\
    forall w r s0, h w r s0 = (run_in_order acts w r ;; t w r) s0.
Proof.
  intros T P s. eexists. split; [reflexivity|].
  intros w r s0. cbn [FaultGo.middlewares].
  destruct (wrapAll_cut acts inj t rest next s0 T P) as [h [E H]].
  rewrite <- H. unfold bind. now rewrite chainLoop_wrapAll, E.
Qed.

Lemma reject_ends (i : option FaultGo.RejectInjector) :
  ends_with (FaultGo.Injector_of_Reject i) (fun _ _ => panic ErrAbortHandler).
Proof. intros next s. eexists. split; reflexivity. Qed.

Lemma before_pure (a : HttpHandler) : pure_wrap (before a).
Proof. exists (fun next w r => a w r ;; next w r). reflexivity. Qed.

Lemma X6_chain_cut_witness :
  ends_with (FaultGo.Injector_of_Reject (Some FaultGo.mkRejectInjector))
    (fun _ _ => panic ErrAbortHandler) /\
  Forall pure_wrap [before (served 3)] /\
  forall s, exists h,
    FaultGo.ChainedInjector_Handler
      (Some (FaultGo.mkChainedInjector
               (handlers_of
                  (map before [served 1]
                   ++ FaultGo.Injector_of_Reject (Some FaultGo.mkRejectInjector)
                      :: [before (served 3)])))) (served 0) s
    = (Ok h, s) /\
    forall w r s0,
      h w r s0 =
      (run_in_order [served 1] w r ;; panic ErrAbortHandler) s0.
Proof.
  assert (T := reject_ends (Some FaultGo.mkRejectInjector)).
  assert (P : Forall pure_wrap [before (served 3)]).
  { constructor; [apply before_pure|constructor]. }
  split; [exact T|]. split; [exact P|].
  apply (X6_chain_cut [served 1] _ _ [before (served 3)] (served 0) T P).
Defined.

(** X7: a chained injector given as the first sub-injector of a chain is
    flattened: the chain of [Chain(injs1), injs2...] behaves on every
    request as the chain of [injs1..., injs2...], whatever the
    sub-injectors do when they wrap. *)
Theorem X7_nested_chain_flattens (injs1 injs2 : list FaultGo.Injector)
  (next : HttpHandler) :
  same_handler
    (FaultGo.ChainedInjector_Handler
       (Some (FaultGo.mkChainedInjector
                (handlers_of
                   (FaultGo.Injector_of_Chained
                      (Some (FaultGo.mkChainedInjector (handlers_of injs1)))
                    :: injs2)))) next)
    (FaultGo.ChainedInjector_Handler
       (Some (FaultGo.mkChainedInjector (handlers_of (injs1 ++ injs2)))) next).
Proof.
  intros s. do 2 eexists. split; [reflexivity|]. split; [reflexivity|].
  intros w r s'. cbn [FaultGo.middlewares].
  rewrite (bind_ext_l _ _ _ _ (chainLoop_wrapAll _ _ _)).
  rewrite (bind_ext_l _ _ _ _ (chainLoop_wrapAll (handlers_of (injs1 ++ injs2)) _ _)).
  unfold handlers_of at 3. rewrite map_app.
  fold (handlers_of injs1). fold (handlers_of injs2).
  rewrite (bind_ext_l _ _ _ _ (wrapAll_app _ _ _ _)).
  simpl wrapAll. fold (handlers_of injs2).
  rewrite !bind_assoc. apply bind_ext_r. intros h s1.
  unfold FaultGo.ChainedInjector_Handler. rewrite bind_ret_l.
  apply bind_ext_l. cbn [FaultGo.middlewares]. apply chainLoop_wrapAll.
Qed.

(** X8: a gate used as the one sub-injector of a chain is asked again for
    each request.  The chained handler wraps when it serves, so a gate with
    [p <= 1.0] inside it draws one sample per request and hands the request
    to its injector exactly when the sample is below [p]: the chain over the
    gate behaves as the gate that samples per request. *)
Theorem X8_gate_in_chain_per_request (f : FaultGo.Fault)
  (next : HttpHandler) :
  le (FaultGo.PercentOfRequests (FaultGo.opt f)) one = true ->
  same_handler
    (FaultGo.ChainedInjector_Handler
       (Some (FaultGo.mkChainedInjector
                (handlers_of [FaultGo.Injector_of_Fault (Some f)]))) next)
    (Spec_Handler f next).
Proof.
  intros B s. do 2 eexists. split; [reflexivity|]. split; [reflexivity|].
  intros w r s'.
  unfold FaultGo.Fault_Handler, FaultGo.index, bind, ret, Spec_Handler.
  cbn -[lt le one].
  destruct (FaultGo.Enabled (FaultGo.opt f)); [|reflexivity].
  unfold FaultGo.percentDo, bind, rand_Float32, ret. cbn -[lt le one].
  rewrite B, andb_true_r.
  destruct (lt (float_src s' (rand_pos s'))
              (FaultGo.PercentOfRequests (FaultGo.opt f))); [|reflexivity].
  destruct (FaultGo.Injector' (FaultGo.opt f)) as [inj|]; [|reflexivity].
  cbn. destruct (FaultGo.Handler inj next (draw s')) as [[h|v] s2]; reflexivity.
Qed.

Lemma X8_gate_in_chain_witness :
  le (FaultGo.PercentOfRequests (FaultGo.opt gate_half)) one = true /\
  same_handler
    (FaultGo.ChainedInjector_Handler
       (Some (FaultGo.mkChainedInjector
                (handlers_of [FaultGo.Injector_of_Fault (Some gate_half)])))
       (served 0))
    (Spec_Handler gate_half (served 0)).
Proof.
  split; [reflexivity|].
  apply (X8_gate_in_chain_per_request gate_half (served 0)). reflexivity.
Defined.

Lemma appendHandlers_outcome (l : list (option FaultGo.Injector)) :
  forall acc,
    match FaultGo.appendHandlers acc l with
    | Ok ms => exists injs, l = map Some injs /\ ms = acc ++ handlers_of injs
    | Panic v =>
        In None l /\
        v = RuntimeError "invalid memory address or nil pointer dereference"
    end.
Proof.
  induction l as [|[i|] l IH]; intros acc; simpl.
  - exists []. split; [reflexivity|]. now rewrite app_nil_r.
  - specialize (IH (acc ++ [FaultGo.Handler i])).
    destruct (FaultGo.appendHandlers (acc ++ [FaultGo.Handler i]) l) as [ms|v].
    + destruct IH as [injs [L M]]. exists (i :: injs). split.
      * simpl. now rewrite L.
      * rewrite M, <- app_assoc. reflexivity.
    + destruct IH as [I V]. split; [right; exact I|exact V].
  - split; [left; reflexivity|reflexivity].
Qed.

(** X9: the three outcomes of [NewChainedInjector].  It returns
    [ErrNilInjector] and no injector exactly for the nil slice; it panics,
    on the method value of a nil interface, exactly when the slice holds a
    nil injector; otherwise it returns the injector that holds the wrap
    functions of the sub-injectors, one for each and in their order. *)
Theorem X9_NewChainedInjector_outcome
  (sl : slice (option FaultGo.Injector)) :
  match FaultGo.NewChainedInjector sl with
  | Ok (None, Some e) => sl = nil_slice /\ e = FaultGo.ErrNilInjector
  | Ok (Some ci, None) =>
      exists injs,
        sl = Some (map Some injs) /\
        FaultGo.middlewares ci = handlers_of injs /\
        List.length (FaultGo.middlewares ci) = len sl
  | Ok _ => False
  | Panic v =>
      exists l,
        sl = Some l /\ In None l /\
        v = RuntimeError "invalid memory address or nil pointer dereference"
  end.
Proof.
  destruct sl as [l|]; simpl; [|split; reflexivity].
  pose proof (appendHandlers_outcome l []) as A.
  destruct (FaultGo.appendHandlers [] l) as [ms|v].
  - destruct A as [injs [L M]]. exists injs. subst l. simpl in M. subst ms.
    split; [reflexivity|]. split; [reflexivity|].
    unfold len, handlers_of. simpl. now rewrite !length_map.
  - destruct A as [I V]. exists l. split; [reflexivity|]. split; assumption.
Qed.

(** *** The random injector, out of bounds *)

Lemma bind_panic_index {A : Type} (ms : list InjectorGo.Middleware) (k : Z)
  (c : InjectorGo.Middleware -> M A) (s : World) :
  k < 0 \/ Z.of_nat (List.length ms) <= k ->
  bind (InjectorGo.index ms k) c s
  = (Panic (RuntimeError "index out of range"), s).
Proof.
  intros Out. unfold bind, InjectorGo.index.
  destruct Out as [Neg|Big].
  - replace (k <? 0) with true by (symmetry; apply Z.ltb_lt; lia).
    reflexivity.
  - replace (Z.of_nat (List.length ms) <=? k) with true
      by (symmetry; apply Z.leb_le; lia).
    rewrite orb_true_r. reflexivity.
Qed.

(** X10: an index outside [[0, N)] from the random source makes the handler
    of a random injector panic with a run-time error, in the world the
    source left: no sub-injector runs and [next] does not either. *)
Theorem X10_random_index_out_of_range (ri : InjectorGo.RandomInjector)
  (f : Z -> M Z) (next : HttpHandler) (w : ResponseWriter) (r : Request)
  (s s0 s1 : World) (k : Z) :
  InjectorGo.middlewares ri <> [] ->
  InjectorGo.randF ri = Some f ->
  InjectorGo.reportWithMessage (InjectorGo.reporter ri) r
    "random injector: starting" s = (Ok tt, s0) ->
  f (Z.of_nat (List.length (InjectorGo.middlewares ri))) s0 = (Ok k, s1) ->
  k < 0 \/ Z.of_nat (List.length (InjectorGo.middlewares ri)) <= k ->
  exists h,
    InjectorGo.RandomInjector_Handler (Some ri) next s = (Ok h, s) /\
    h w r s = (Panic (RuntimeError "index out of range"), s1).
Proof.
  intros NE F Rep Fk Out. eexists. split; [reflexivity|]. simpl.
  replace (0 <? Z.of_nat (List.length (InjectorGo.middlewares ri))) with true.
  2:{ symmetry. apply Z.ltb_lt.
      destruct (InjectorGo.middlewares ri); [congruence|simpl; lia]. }
  rewrite (bind_ok _ _ _ _ _ Rep), F. simpl.
  rewrite (bind_ok _ _ _ _ _ Fk).
  apply bind_panic_index. exact Out.
Qed.

Lemma X10_random_out_of_range_witness :
  map InjectorGo.Handler random_subs <> [] /\
  (7 < 0 \/ Z.of_nat (List.length (map InjectorGo.Handler random_subs)) <= 7) /\
  exists h,
    InjectorGo.RandomInjector_Handler
      (Some (InjectorGo.mkRandomInjector (Some (fun _ => ret 7))
               (map InjectorGo.Handler random_subs) None))
      (served 0) world0
    = (Ok h, world0) /\
    h 1%nat req1 world0 = (Panic (RuntimeError "index out of range"), world0).
Proof.
  split; [discriminate|]. split; [right; simpl; lia|].
  apply (X10_random_index_out_of_range
           (InjectorGo.mkRandomInjector (Some (fun _ => ret 7))
              (map InjectorGo.Handler random_subs) None)
           (fun _ => ret 7) (served 0) 1%nat req1 world0 world0 world0 7).
  - discriminate.
  - reflexivity.
  - reflexivity.
  - reflexivity.
  - right. simpl. lia.
Defined.

(** *** The chain injector and its captured variable *)

Lemma run_in_order_app (l1 l2 : list HttpHandler) (w : ResponseWriter)
  (r : Request) (s : World) :
  run_in_order (l1 ++ l2) w r s
  = (run_in_order l1 w r ;; run_in_order l2 w r) s.
Proof.
  revert s. induction l1 as [|a l1 IH]; intros s; simpl.
  - reflexivity.
  - rewrite bind_assoc. apply bind_ext_r. intros _ s'. apply IH.
Qed.

Lemma run_app_then (l1 l2 : list HttpHandler) (w : ResponseWriter)
  (r : Request) (k : M unit) (s : World) :
  (run_in_order (l1 ++ l2) w r ;; k) s
  = (run_in_order l1 w r ;; run_in_order l2 w r ;; k) s.
Proof.
  rewrite (bind_ext_l _ _ _ _ (run_in_order_app l1 l2 w r s)).
  apply bind_assoc.
Qed.

Lemma run_one_then (a : HttpHandler) (w : ResponseWriter) (r : Request)
  (k : M unit) (s : World) :
  (run_in_order [a] w r ;; k) s = (a w r ;; k) s.
Proof.
  simpl. rewrite bind_assoc. apply bind_ext_r. intros _ s'. reflexivity.
Qed.

Lemma index_before' (acts post : list HttpHandler) (a : HttpHandler)
  (s : World) :
  InjectorGo.index
    (map InjectorGo.Handler (map before' ((acts ++ [a]) ++ post)))
    (Z.of_nat (List.length acts)) s
  = (Ok (InjectorGo.Handler (before' a)), s).
Proof.
  destruct (index_in_range (map before' ((acts ++ [a]) ++ post))
              (Z.of_nat (List.length acts)) s) as [inj [N I]].
  { rewrite length_map, !length_app. simpl. lia. }
  rewrite Nat2Z.id, nth_error_map, <- app_assoc, nth_error_app2,
    Nat.sub_diag in N by lia.
  simpl in N. inversion N; subst inj. exact I.
Qed.

(** The loop of the chain injector over acting injectors puts in the
    variable the handler that runs the actions and then what the variable
    held, and leaves the world as it is. *)
Lemma chainAssign_before' (acts : list HttpHandler) :
  forall (post : list HttpHandler) (var : HttpHandler) (s : World),
  exists var',
    InjectorGo.chainAssign
      (map InjectorGo.Handler (map before' (acts ++ post)))
      (List.length acts) var s
    = (Ok tt, var', s) /\
    forall w r s0, var' w r s0 = (run_in_order acts w r ;; var w r) s0.
Proof.
  induction acts as [|a acts IH] using rev_ind; intros post var s.
  - exists var. split; reflexivity.
  - rewrite length_app, Nat.add_comm. simpl.
    rewrite index_before'. simpl.
    destruct (IH (a :: post) (fun w r => a w r ;; var w r) s)
      as [var' [E H]].
    exists var'. split.
    + rewrite <- app_assoc. exact E.
    + intros w r s0. rewrite H, run_app_then.
      apply bind_ext_r. intros _ s'. now rewrite run_one_then.
Qed.

(** One call of the closure of a chain over acting injectors, when the
    variable holds a handler that runs [n] rounds of the actions and then
    [next]: the call runs one round more, and leaves in the variable the
    handler that does so. *)
Lemma serve_round (acts : list HttpHandler) (next var : HttpHandler)
  (n : nat) (w : ResponseWriter) (r : Request) (s : World) :
  (forall w r s0,
     var w r s0 = (run_in_order (rounds n acts) w r ;; next w r) s0) ->
  exists var',
    InjectorGo.ChainInjector_serve
      (Some (InjectorGo.mkChainInjector
               (map InjectorGo.Handler (map before' acts)) None)) w r var s
    = (let (res, s') :=
         (run_in_order (rounds (S n) acts) w
            (InjectorGo.updateRequestContextValue r ContextValueChainInjector) ;;
          next w
            (InjectorGo.updateRequestContextValue r ContextValueChainInjector))
           s
       in (res, var', s')) /\
    forall w r s0,
      var' w r s0 = (run_in_order (rounds (S n) acts) w r ;; next w r) s0.
Proof.
  intros V.
  destruct (chainAssign_before' acts [] var s) as [var' [E H]].
  rewrite app_nil_r in E.
  assert (H' : forall w r s0,
             var' w r s0
             = (run_in_order (rounds (S n) acts) w r ;; next w r) s0).
  { intros w0 r0 s0. rewrite H. simpl rounds. rewrite run_app_then.
    apply bind_ext_r. intros _ s'. apply V. }
  exists var'. split; [|exact H'].
  unfold InjectorGo.ChainInjector_serve. simpl InjectorGo.reportWithMessage.
  cbn [InjectorGo.chain_middlewares InjectorGo.chain_reporter ret].
  rewrite !length_map, E, H'. reflexivity.
Qed.

(** X11: the handler of a chain injector grows with every request it
    serves.  Its closure assigns the wrapped handler to the captured
    [next], so after [n] requests the variable holds a handler that runs
    the sub-injectors' actions [n] times before [next], and the request
    after them runs the actions [n + 1] times, on the tagged request, before
    the downstream handler. *)
Theorem X11_chain_injector_accumulates (acts : list HttpHandler)
  (next : HttpHandler) (reqs : list (ResponseWriter * Request)) (s : World) :
  exists ci,
    InjectorGo.NewChainInjector (Some (map Some (map before' acts)))
    = Ok (Some ci, None) /\
    let c := InjectorGo.ChainInjector_Handler (Some ci) next in
    InjectorGo.captured c = next /\
    let (var, s') :=
      InjectorGo.serveMany (InjectorGo.serve c) reqs (InjectorGo.captured c) s
    in
    (forall w r s0,
       var w r s0
       = (run_in_order (rounds (List.length reqs) acts) w r ;; next w r) s0) /\
    forall w r s0, exists var',
      InjectorGo.serve c w r var s0
      = (let (res, s1) :=
           (run_in_order (rounds (S (List.length reqs)) acts) w
              (InjectorGo.updateRequestContextValue
                 r ContextValueChainInjector) ;;
            next w
              (InjectorGo.updateRequestContextValue
                 r ContextValueChainInjector)) s0
         in (res, var', s1)).
Proof.
  eexists. split.
  { unfold InjectorGo.NewChainInjector. simpl.
    rewrite appendHandlers_random. reflexivity. }
  simpl. split; [reflexivity|].
  assert (G : forall reqs var n s,
             (forall w r s0,
                var w r s0 = (run_in_order (rounds n acts) w r ;; next w r) s0) ->
             let (var', s') :=
               InjectorGo.serveMany
                 (InjectorGo.ChainInjector_serve
                    (Some (InjectorGo.mkChainInjector
                             (map InjectorGo.Handler (map before' acts)) None)))
                 reqs var s in
             forall w r s0,
               var' w r s0
               = (run_in_order (rounds (n + List.length reqs) acts) w r ;;
                  next w r) s0).
  { clear reqs s. induction reqs as [|[w r] reqs IH]; intros var n s V;
      cbn [InjectorGo.serveMany List.length].
    - rewrite Nat.add_0_r. exact V.
    - destruct (serve_round acts next var n w r s V) as [var' [E V']].
      rewrite E.
      destruct ((run_in_order (rounds (S n) acts) w
                   (InjectorGo.updateRequestContextValue
                      r ContextValueChainInjector) ;;
                 next w
                   (InjectorGo.updateRequestContextValue
                      r ContextValueChainInjector)) s) as [res s1].
      specialize (IH var' (S n) s1 V').
      rewrite Nat.add_succ_r. exact IH. }
  specialize (G reqs next 0%nat s (fun w r s0 => eq_refl)).
  destruct (InjectorGo.serveMany _ reqs next s) as [var s'].
  simpl in G. split; [exact G|].
  intros w r s0.
  destruct (serve_round acts next var (List.length reqs) w r s0 G)
    as [var' [E _]].
  exists var'. exact E.
Qed.

(** *** Construction of the composite injectors with a reporter *)

Lemma appendHandlers_outcome' (l : list (option InjectorGo.Injector)) :
  forall acc,
    match InjectorGo.appendHandlers acc l with
    | Ok ms =>
        exists injs,
          l = map Some injs /\ ms = acc ++ map InjectorGo.Handler injs
    | Panic v =>
        In None l /\
        v = RuntimeError "invalid memory address or nil pointer dereference"
    end.
Proof.
  induction l as [|[i|] l IH]; intros acc; simpl.
  - exists []. split; [reflexivity|]. now rewrite app_nil_r.
  - specialize (IH (acc ++ [InjectorGo.Handler i])).
    destruct (InjectorGo.appendHandlers (acc ++ [InjectorGo.Handler i]) l)
      as [ms|v].
    + destruct IH as [injs [L M]]. exists (i :: injs). split.
      * simpl. now rewrite L.
      * rewrite M, <- app_assoc. reflexivity.
    + destruct IH as [I V]. split; [right; exact I|exact V].
  - split; [left; reflexivity|reflexivity].
Qed.

(** X12: [NewRandomInjector] and [NewChainInjector] never return an error.
    Unlike [NewChainedInjector] they take the nil slice as the empty list;
    they panic exactly when the slice holds a nil injector, and otherwise
    return the injector that holds the sub-injectors' wrap functions in
    order, with no reporter, and for the random injector [rand.Intn] as
    source. *)
Theorem X12_composite_constructors (sl : slice (option InjectorGo.Injector)) :
  match InjectorGo.NewRandomInjector sl with
  | Ok (Some ri, None) =>
      exists injs,
        elems sl = map Some injs /\
        InjectorGo.middlewares ri = map InjectorGo.Handler injs /\
        InjectorGo.randF ri = Some rand_Intn /\
        InjectorGo.reporter ri = None
  | Ok _ => False
  | Panic v =>
      In None (elems sl) /\
      v = RuntimeError "invalid memory address or nil pointer dereference"
  end /\
  match InjectorGo.NewChainInjector sl with
  | Ok (Some ci, None) =>
      exists injs,
        elems sl = map Some injs /\
        InjectorGo.chain_middlewares ci = map InjectorGo.Handler injs /\
        InjectorGo.chain_reporter ci = None
  | Ok _ => False
  | Panic v =>
      In None (elems sl) /\
      v = RuntimeError "invalid memory address or nil pointer dereference"
  end.
Proof.
  unfold InjectorGo.NewRandomInjector, InjectorGo.NewChainInjector.
  pose proof (appendHandlers_outcome' (elems sl) []) as A.
  destruct (InjectorGo.appendHandlers [] (elems sl)) as [ms|v].
  - destruct A as [injs [L M]]. simpl in M. subst ms.
    split; exists injs; repeat split; exact L.
  - split; exact A.
Qed.

(** *** A chain of slow injectors *)

Lemma with_trace_nil (s : World) : with_trace s [] = s.
Proof. destruct s. unfold with_trace. simpl. now rewrite app_nil_r. Qed.

Lemma with_trace_cons (s : World) (e : Event) (evs : list Event) :
  with_trace (with_trace s [e]) evs = with_trace s (e :: evs).
Proof. unfold with_trace. simpl. now rewrite <- app_assoc. Qed.

Lemma run_sleeps (ds : list Duration) (w : ResponseWriter) (r : Request) :
  forall s,
    run_in_order (map (fun d _ _ => time_Sleep d) ds) w r s
    = (Ok tt, with_trace s (map EvSleep ds)).
Proof.
  induction ds as [|d ds IH]; intros s; simpl.
  - now rewrite with_trace_nil.
  - unfold bind, time_Sleep, emit. fold (with_trace s [EvSleep d]).
    now rewrite IH, with_trace_cons.
Qed.

Lemma slow_injectors_before (ds : list Duration) :
  map (fun d => FaultGo.Injector_of_Slow
                  (Some (FaultGo.mkSlowInjector d (Some time_Sleep)))) ds
  = map before (map (fun d _ _ => time_Sleep d) ds).
Proof. rewrite map_map. reflexivity. Qed.

(** X13: a chain of slow injectors built by [NewSlowInjector] sleeps for
    each of the durations, once and in the order given, and then runs the
    downstream handler: its only effects before [next] are the sleeps. *)
Theorem X13_chain_of_slow (ds : list Duration) (next : HttpHandler) :
  exists ci,
    FaultGo.NewChainedInjector
      (Some (map (fun d => Some (FaultGo.Injector_of_Slow
                                   (fst (FaultGo.NewSlowInjector d)))) ds))
    = Ok (Some ci, None) /\
    forall s, exists h,
      FaultGo.ChainedInjector_Handler (Some ci) next s = (Ok h, s) /\
      forall w r s0, h w r s0 = next w r (with_trace s0 (map EvSleep ds)).
Proof.
  exists (FaultGo.mkChainedInjector
            (handlers_of (map before (map (fun d _ _ => time_Sleep d) ds)))).
  split.
  { rewrite <- slow_injectors_before, <- NewChainedInjector_Some, map_map.
    reflexivity. }
  intros s. eexists. split; [reflexivity|].
  intros w r s0. cbn [FaultGo.middlewares].
  destruct (wrapAll_before (map (fun d _ _ => time_Sleep d) ds) next s0)
    as [h [E H]].
  unfold bind at 1. rewrite chainLoop_wrapAll, E, H.
  unfold bind. now rewrite run_sleeps.
Qed.
